(** * The committee consensus operator (packages/consensus/action.go)

    A shallow embedding of the leader side of the consensus operator:
    [takeAction], [doSubordinate], [doLeader], [requestBalancesFromNode],
    [startProcessing], [checkQuorum] and [setNewState].

    Conventions of the embedding.
    - The operator is a record; every method is a function in the monad
      [M], which threads the operator, accumulates the externally visible
      events of the call (log lines, messages to peers, goroutines started,
      requests to the node) and stops at the first Go panic.
    - A Go pointer that may be nil is an [option]; dereferencing [None]
      panics with [NilDereference]; indexing a slice out of range panics
      with [IndexOutOfRange].
    - [*request] pointers are represented by their pointees.  The functions
      embedded here write only the notification vectors (in [setNewState])
      and [processed] (in [doSubordinate]); the one field they read through
      an alias, [reqMsg], is never written by them.
    - Peer counts ([quorum()], the number of successful sends) are integers
      of a type declared outside this package; they are mathematical
      integers here, and [Size()] and the peer index, which only measure and
      index slices, are natural numbers.  Times are nanosecond counts. *)

From Stdlib Require Import ZArith Lia String.
From stdpp Require Import base option list gmap strings.

(** ** Data model *)

(** hashing.HashValue: a 32-byte array, compared with [==]. *)
Definition HashValue := Z.
Definition Address := Z.
Definition RequestId := Z.
Definition Time := Z.

(** A signature share or signature, []byte. *)
Definition Bytes := list Byte.byte.

(** map[color]amount for the committee address; only passed along. *)
Definition Balances := list (Z * Z).

(** The parts of sctransaction.Transaction the operator looks at. *)
Record Transaction := mkTransaction {
  txID : HashValue;
  txStateIndex : Z;
  txSignature : option Bytes
}.

Record VariableState := mkVariableState {
  StateIndex : Z
}.

Record Committee := mkCommittee {
  Size : nat;
  OwnPeerIndex : nat;
  Quorum : Z;
  committeeAddress : Address
}.

Record request := mkRequest {
  reqId : RequestId;
  reqMsg : option Bytes;
  notificationsCurrentState : list bool;
  notificationsNextState : list bool
}.

Record computationRequest := mkComputationRequest {
  req : request;
  processed : bool
}.

Record signedResult := mkSignedResult {
  essenceHash : HashValue;
  sigShare : Bytes
}.

Record LeaderStatus := mkLeaderStatus {
  reqs : list request;
  batchHash : HashValue;
  ts : Time;
  resultTx : option Transaction;
  finalized : bool;
  signedResults : list (option signedResult)
}.

Record operator := mkOperator {
  committee : Committee;
  stateTx : option Transaction;
  variableState : option VariableState;
  balances : option Balances;
  getBalancesDeadline : Time;
  leaderStatus : option LeaderStatus;
  requests : list request;
  currentStateCompRequests : list computationRequest;
  nextStateCompRequests : list computationRequest
}.

(** committee.StartProcessingReqMsg, before it is serialised. *)
Record StartProcessingReqMsg := mkStartProcessingReqMsg {
  msgStateIndex : Z;
  msgRewardAddress : Address;
  msgBalances : Balances;
  msgRequestIds : list RequestId
}.

Record runCalculationsParams := mkRunCalculationsParams {
  rcReqs : list Bytes;
  rcTs : Time;
  rcBalances : Balances;
  rcRewardAddress : Address;
  rcLeaderPeerIndex : nat
}.

(** ** Effects *)

Inductive logLevel := Debug | Info | Error.

Inductive event :=
| EvLog (lvl : logLevel) (msg : string)
| EvRequestBalancesFromNode (addr : Address)
| EvSendMsgToPeers (msg : StartProcessingReqMsg)
| EvGoProcessRequest (par : runCalculationsParams)
| EvPostTransactionToNodeAsyncWithRetry (tx : Transaction) (retry window : Z).

Inductive panic :=
| NilDereference
| IndexOutOfRange
| PanicMsg (msg : string).

Inductive outcome (A : Type) :=
| Returned (a : A) (op : operator) (tr : list event)
| Panicked (p : panic) (op : operator) (tr : list event).
Arguments Returned {A} a op tr.
Arguments Panicked {A} p op tr.

Definition M (A : Type) := operator -> outcome A.

Definition ret {A} (a : A) : M A := fun op => Returned a op [].

Definition bind {A B} (m : M A) (k : A -> M B) : M B := fun op =>
  match m op with
  | Returned a op1 t1 =>
      match k a op1 with
      | Returned b op2 t2 => Returned b op2 (t1 ++ t2)
      | Panicked p op2 t2 => Panicked p op2 (t1 ++ t2)
      end
  | Panicked p op1 t1 => Panicked p op1 t1
  end.

Notation "'do' x <- m ; k" := (bind m (fun x => k))
  (at level 10, x name, m at level 100, k at level 200).
Notation "'run' m ; k" := (bind m (fun _ => k))
  (at level 10, m at level 100, k at level 200).

Definition get : M operator := fun op => Returned op op [].
Definition put (op' : operator) : M unit := fun _ => Returned tt op' [].
Definition emit (e : event) : M unit := fun op => Returned tt op [e].
Definition throw {A} (p : panic) : M A := fun op => Panicked p op [].
Definition log (lvl : logLevel) (msg : string) : M unit := emit (EvLog lvl msg).

(** [*p] for a pointer that may be nil. *)
Definition deref {A} (p : option A) : M A :=
  match p with
  | Some a => ret a
  | None => throw NilDereference
  end.

(** [s[i]] for a slice. *)
Definition index {A} (s : list A) (i : nat) : M A :=
  match s !! i with
  | Some a => ret a
  | None => throw IndexOutOfRange
  end.

Definition events {A} (o : outcome A) : list event :=
  match o with
  | Returned _ _ tr => tr
  | Panicked _ _ tr => tr
  end.

Definition final {A} (o : outcome A) : operator :=
  match o with
  | Returned _ op _ => op
  | Panicked _ op _ => op
  end.

Definition returns {A} (o : outcome A) : bool :=
  match o with
  | Returned _ _ _ => true
  | Panicked _ _ _ => false
  end.

(** ** Field updates *)

Definition set_balances (v : option Balances) (op : operator) : operator :=
  mkOperator (committee op) (stateTx op) (variableState op) v
    (getBalancesDeadline op) (leaderStatus op) (requests op)
    (currentStateCompRequests op) (nextStateCompRequests op).

Definition set_getBalancesDeadline (v : Time) (op : operator) : operator :=
  mkOperator (committee op) (stateTx op) (variableState op) (balances op)
    v (leaderStatus op) (requests op)
    (currentStateCompRequests op) (nextStateCompRequests op).

Definition set_leaderStatus (v : option LeaderStatus) (op : operator) : operator :=
  mkOperator (committee op) (stateTx op) (variableState op) (balances op)
    (getBalancesDeadline op) v (requests op)
    (currentStateCompRequests op) (nextStateCompRequests op).

Definition set_stateTx (v : option Transaction) (op : operator) : operator :=
  mkOperator (committee op) v (variableState op) (balances op)
    (getBalancesDeadline op) (leaderStatus op) (requests op)
    (currentStateCompRequests op) (nextStateCompRequests op).

Definition set_variableState (v : option VariableState) (op : operator) : operator :=
  mkOperator (committee op) (stateTx op) v (balances op)
    (getBalancesDeadline op) (leaderStatus op) (requests op)
    (currentStateCompRequests op) (nextStateCompRequests op).

Definition set_requests (v : list request) (op : operator) : operator :=
  mkOperator (committee op) (stateTx op) (variableState op) (balances op)
    (getBalancesDeadline op) (leaderStatus op) v
    (currentStateCompRequests op) (nextStateCompRequests op).

Definition set_compRequests (cur next : list computationRequest)
    (op : operator) : operator :=
  mkOperator (committee op) (stateTx op) (variableState op) (balances op)
    (getBalancesDeadline op) (leaderStatus op) (requests op) cur next.

Definition set_resultTx (v : option Transaction) (ls : LeaderStatus) : LeaderStatus :=
  mkLeaderStatus (reqs ls) (batchHash ls) (ts ls) v (finalized ls)
    (signedResults ls).

Definition set_txSignature (v : option Bytes) (tx : Transaction) : Transaction :=
  mkTransaction (txID tx) (txStateIndex tx) v.

(** ** Collaborators outside the package

    What the operator calls but this package does not define.  The batch
    selection policy and the leader rotation are functions of the operator
    they are called on; the registry may have no reward address (the
    operator dereferences what it returns); threshold recovery may fail. *)

Class Collaborators := {
  iAmCurrentLeader : operator -> bool;
  selectRequestsToProcess : operator -> list request;
  GetRewardAddress : Address -> option Address;
  BatchHash : list RequestId -> HashValue;
  RecoverFullSignature : list Bytes -> Transaction -> option Bytes;
  SignaturesValid : Transaction -> bool
}.

(** What the outside world answers during one tick: the two readings of
    [time.Now()] in [requestBalancesFromNode] (at the test and when the new
    deadline is set), and the result [(numSucc, ts)] of
    [committee.SendMsgToPeers]. *)
Record Tick := mkTick {
  nowAtCheck : Time;
  nowAtIssue : Time;
  SendMsgToPeers : StartProcessingReqMsg -> Z * Time
}.

(** [const getBalancesTimeout = 1 * time.Second] *)
Definition getBalancesTimeout : Z := 1 * 1000000000.

(** ** Helpers of the package that are not in action.go *)

(** Modelled from the spec: [op.quorum()], the committee's threshold
    ("exposes [size()], [ownIndex()], ... and [quorum()]"). *)
Definition quorum (op : operator) : Z := Quorum (committee op).

(** Modelled from the spec: [op.peerIndex()], this node's index in the
    committee ("this node's own slot"). *)
Definition peerIndex (op : operator) : nat := OwnPeerIndex (committee op).

(** Modelled from the spec: [takeIds], "the ordered request-ID list" of the
    selected batch. *)
Definition takeIds (rs : list request) : list RequestId := map reqId rs.

(** Modelled from the spec: [takeMsgs], the messages of the selected
    requests; its second result is false when "request messages that should
    have been present are nil". *)
Fixpoint takeMsgs (rs : list request) : list Bytes * bool :=
  match rs with
  | [] => ([], true)
  | r :: rest =>
      match reqMsg r, takeMsgs rest with
      | Some m, (ms, true) => (m :: ms, true)
      | _, _ => ([], false)
      end
  end.

(** Modelled from the spec: [setAllFalse], the vector "zeroed" in place. *)
Definition setAllFalse (v : list bool) : list bool := map (fun _ => false) v.

(** Modelled from the spec: [resetLeader], "discard any in-flight
    LeaderStatus"; what the seed is used for is outside this file. *)
Definition resetLeader (seed : HashValue) : M unit :=
  do op <- get;
  put (set_leaderStatus None op).

Section Operator.
Context `{Collaborators}.

(** Modelled from the spec: [aggregateSigShares], "aggregate the collected
    shares into a full threshold signature ..., attach it to resultTx".
    The result is the Go [error]: [true] when recovery failed. *)
Definition aggregateSigShares (sigShares : list Bytes) : M bool :=
  do op <- get;
  do ls <- deref (leaderStatus op);
  do tx <- deref (resultTx ls);
  match RecoverFullSignature sigShares tx with
  | None => ret true
  | Some sig =>
      run put (set_leaderStatus
                 (Some (set_resultTx (Some (set_txSignature (Some sig) tx)) ls)) op);
      ret false
  end.

(** ** action.go *)

(** [doSubordinate]: one pass of the loop body. *)
Definition markProcessed (cr : computationRequest) : computationRequest :=
  if processed cr then cr
  else match reqMsg (req cr) with
       | None => cr
       | Some _ => mkComputationRequest (req cr) true
       end.

Definition doSubordinate : M unit :=
  do op <- get;
  put (set_compRequests (map markProcessed (currentStateCompRequests op))
         (nextStateCompRequests op) op).

Definition requestBalancesFromNode (t : Tick) : M unit :=
  do op <- get;
  if bool_decide (balances op = None)
     && (getBalancesDeadline op <? nowAtCheck t)%Z
  then
    run emit (EvRequestBalancesFromNode (committeeAddress (committee op)));
    put (set_getBalancesDeadline (nowAtIssue t + getBalancesTimeout)%Z op)
  else ret tt.

Definition startProcessing (t : Tick) : M unit :=
  do op <- get;
  match balances op with
  | None => ret tt
  | Some bal =>
  match leaderStatus op with
  | Some _ => ret tt
  | None =>
  let reqs := selectRequestsToProcess op in
  let reqIds := takeIds reqs in
  if bool_decide (length reqs = 0) then
    run log Debug "can't select request to process";
    ret tt
  else
  do stx <- deref (stateTx op);
  run log Debug "requests selected to process";
  do reward <- deref (GetRewardAddress (committeeAddress (committee op)));
  let msgData :=
    mkStartProcessingReqMsg (txStateIndex stx) reward bal reqIds in
  run emit (EvSendMsgToPeers msgData);
  let numSucc := fst (SendMsgToPeers t msgData) in
  let ts := snd (SendMsgToPeers t msgData) in
  run log Debug "%d 'msgStartProcessingRequest' messages sent to peers";
  if (numSucc <? quorum op - 1)%Z then
    run log Error "only %d 'msgStartProcessingRequest' sends succeeded";
    ret tt
  else
  let reqMsgs := fst (takeMsgs reqs) in
  let ok := snd (takeMsgs reqs) in
  if negb ok then throw (PanicMsg "some req messages are nil")
  else
  run put (set_leaderStatus
             (Some (mkLeaderStatus reqs (BatchHash reqIds) ts None false
                      (replicate (Size (committee op)) None))) op);
  run log Debug "msgStartProcessingRequest successfully sent to %d peers";
  do reward' <- deref (GetRewardAddress (committeeAddress (committee op)));
  emit (EvGoProcessRequest
          (mkRunCalculationsParams reqMsgs ts bal reward'
             (OwnPeerIndex (committee op))))
  end end.

(** The loop of [checkQuorum] over [signedResults]: [None] is the nil
    dereference at a slot that holds no result. *)
Fixpoint collectSigShares (mainHash : HashValue)
    (srs : list (option signedResult)) (sigShares : list Bytes)
    : option (list Bytes) :=
  match srs with
  | [] => Some sigShares
  | None :: _ => None
  | Some sr :: rest =>
      if (essenceHash sr =? mainHash)%Z
      then collectSigShares mainHash rest (sigShares ++ [sigShare sr])
      else collectSigShares mainHash rest sigShares
  end.

Definition checkQuorum : M bool :=
  run log Debug "checkQuorum";
  do op <- get;
  match leaderStatus op with
  | None => ret false
  | Some ls =>
  match resultTx ls with
  | None => ret false
  | Some _ =>
  if finalized ls then ret false
  else
  do slot <- index (signedResults ls) (OwnPeerIndex (committee op));
  do own <- deref slot;
  let mainHash := essenceHash own in
  do sigShares <- deref (collectSigShares mainHash (signedResults ls) []);
  if (Z.of_nat (length sigShares) <? quorum op)%Z then ret false
  else
  do err <- aggregateSigShares sigShares;
  if err then
    run log Error "aggregateSigShares returned: %v";
    ret false
  else
  do op' <- get;
  do ls' <- deref (leaderStatus op');
  do tx' <- deref (resultTx ls');
  if negb (SignaturesValid tx') then
    run log Error "something went wrong while finalizing result transaction: %v";
    ret false
  else
  run log Info "FINALIZED RESULT. Posting transaction to the Value Tangle. txid = %s";
  run emit (EvPostTransactionToNodeAsyncWithRetry tx' (2 * 1000000000) (7 * 1000000000));
  ret true
  end end.

Definition doLeader (t : Tick) : M unit :=
  do op <- get;
  run (if iAmCurrentLeader op then
         match balances op with
         | None => requestBalancesFromNode t
         | Some _ => startProcessing t
         end
       else ret tt);
  run checkQuorum;
  ret tt.

Definition takeAction (t : Tick) : M unit :=
  run doLeader t;
  doSubordinate.

(** The body of the loop of [setNewState] over [op.requests], on one
    request: the request as the body leaves it, and the panic that stopped
    it, if any ([v[i] = true] with [i] out of range). *)
Definition rotateRequest (nextStateTransition : bool) (own : nat)
    (r : request) : request * option panic :=
  if nextStateTransition then
    let r1 := mkRequest (reqId r) (reqMsg r)
                (notificationsNextState r)
                (setAllFalse (notificationsCurrentState r)) in
    match reqMsg r with
    | None => (r1, None)
    | Some _ =>
        if bool_decide (own < length (notificationsNextState r1)) then
          let r2 := mkRequest (reqId r1) (reqMsg r1)
                      (notificationsCurrentState r1)
                      (<[own:=true]> (notificationsNextState r1)) in
          if bool_decide (own < length (notificationsCurrentState r2)) then
            (mkRequest (reqId r2) (reqMsg r2)
               (<[own:=true]> (notificationsCurrentState r2))
               (notificationsNextState r2), None)
          else (r2, Some IndexOutOfRange)
        else (r1, Some IndexOutOfRange)
    end
  else
    (mkRequest (reqId r) (reqMsg r)
       (setAllFalse (notificationsCurrentState r))
       (setAllFalse (notificationsNextState r)), None).

(** [for _, req := range op.requests { body }]: the requests are updated in
    place, so a panic leaves the ones already visited updated. *)
Fixpoint rangeRequests (body : request -> request * option panic)
    (visited rest : list request) : M unit :=
  match rest with
  | [] => do op <- get; put (set_requests visited op)
  | r :: rest' =>
      match body r with
      | (r', None) => rangeRequests body (visited ++ [r']) rest'
      | (r', Some p) =>
          do op <- get;
          run put (set_requests (visited ++ r' :: rest') op);
          throw p
      end
  end.

(** [setNewState]; [now] is the reading of [time.Now()]. *)
Definition setNewState (now : Time) (newStateTx : Transaction)
    (newVariableState : VariableState) : M unit :=
  do op <- get;
  run put (set_getBalancesDeadline now
             (set_balances None (set_stateTx (Some newStateTx) op)));
  let nextStateTransition :=
    match variableState op with
    | None => false
    | Some old => (StateIndex newVariableState =? StateIndex old + 1)%Z
    end in
  do op1 <- get;
  run put (set_variableState (Some newVariableState) op1);
  run resetLeader (txID newStateTx);
  do op2 <- get;
  run put (set_compRequests (nextStateCompRequests op2) [] op2);
  do op3 <- get;
  rangeRequests (rotateRequest nextStateTransition (peerIndex op3)) []
    (requests op3).

End Operator.

(** ** Reading the code

    Definitions in which the properties below are stated. *)

(** The shares [checkQuorum] is to aggregate: those of the recorded results
    whose hash is [mainHash], in peer order. *)
Definition matchingShares (mainHash : HashValue) (rs : list signedResult)
    : list Bytes :=
  sigShare <$> filter (fun sr => essenceHash sr = mainHash) rs.

(** The transactions a trace hands to the node for posting. *)
Definition posted (tr : list event) : list Transaction :=
  omap (fun e => match e with
                 | EvPostTransactionToNodeAsyncWithRetry tx _ _ => Some tx
                 | _ => None
                 end) tr.

(** Whether [setNewState] takes the new state for the direct successor of
    the one the operator holds. *)
Definition isNextState (op : operator) (vs : VariableState) : bool :=
  match variableState op with
  | None => false
  | Some old => (StateIndex vs =? StateIndex old + 1)%Z
  end.

(** The own slot set, for a request whose message has been received. *)
Definition markOwn (own : nat) (msg : option Bytes) (v : list bool)
    : list bool :=
  match msg with
  | Some _ => <[own:=true]> v
  | None => v
  end.

Section Reading.
Context `{Collaborators}.

(** What [checkQuorum] does once the guard is passed and the shares of
    [shares] have been collected: nothing below quorum, otherwise recovery
    of the signature from [shares], its attachment to resultTx, the validity
    check and the posting. *)
Definition afterCollect (op : operator) (ls : LeaderStatus) (tx : Transaction)
    (shares : list Bytes) : outcome bool :=
  if (Z.of_nat (length shares) <? quorum op)%Z then
    Returned false op [EvLog Debug "checkQuorum"]
  else
    match RecoverFullSignature shares tx with
    | None =>
        Returned false op
          [EvLog Debug "checkQuorum";
           EvLog Error "aggregateSigShares returned: %v"]
    | Some sig =>
        let tx' := set_txSignature (Some sig) tx in
        let op' := set_leaderStatus (Some (set_resultTx (Some tx') ls)) op in
        if SignaturesValid tx' then
          Returned true op'
            [EvLog Debug "checkQuorum";
             EvLog Info "FINALIZED RESULT. Posting transaction to the Value Tangle. txid = %s";
             EvPostTransactionToNodeAsyncWithRetry tx' 2000000000 7000000000]
        else
          Returned false op'
            [EvLog Debug "checkQuorum";
             EvLog Error "something went wrong while finalizing result transaction: %v"]
    end.

(** The StartProcessing message of the tick and the round it opens. *)
Definition startProcessingMsg (op : operator) (stx : Transaction)
    (reward : Address) (bal : Balances) : StartProcessingReqMsg :=
  mkStartProcessingReqMsg (txStateIndex stx) reward bal
    (takeIds (selectRequestsToProcess op)).

Definition newRound (op : operator) (ts : Time) : LeaderStatus :=
  mkLeaderStatus (selectRequestsToProcess op)
    (BatchHash (takeIds (selectRequestsToProcess op))) ts None false
    (replicate (Size (committee op)) None).

Definition sentTrace (m : StartProcessingReqMsg) : list event :=
  [EvLog Debug "requests selected to process";
   EvSendMsgToPeers m;
   EvLog Debug "%d 'msgStartProcessingRequest' messages sent to peers"].

(** ** The tick as the specification orders it

    The leader role of a tick (balance acquisition, or batch selection,
    broadcast and execution-task spawn), and the order of the specification:
    subordinate bookkeeping, then the leader role, then the quorum check. *)
Definition leaderRole (t : Tick) : M unit :=
  do op <- get;
  if iAmCurrentLeader op then
    match balances op with
    | None => requestBalancesFromNode t
    | Some _ => startProcessing t
    end
  else ret tt.

Definition takeAction_as_specified (t : Tick) : M unit :=
  run doSubordinate;
  run leaderRole t;
  run checkQuorum;
  ret tt.

End Reading.

(** ** A committee of four with quorum three

    Concrete collaborators and operators on which the functions above are
    evaluated: the selection policy takes every known request, every address
    has itself as reward address, threshold recovery concatenates the shares
    and a transaction is valid once it carries a signature. *)
Module Demo.
#[local] Open Scope Z_scope.

Definition collaborators : Collaborators := {|
  iAmCurrentLeader := fun _ => true;
  selectRequestsToProcess := fun op => requests op;
  GetRewardAddress := fun a => Some a;
  BatchHash := fun ids => foldr Z.add 0 ids;
  RecoverFullSignature := fun shares _ => Some (concat shares);
  SignaturesValid := fun tx =>
    match txSignature tx with Some _ => true | None => false end
|}.

Definition committee4 : Committee := mkCommittee 4%nat 0%nat 3 77.

Definition stateTx10 : Transaction := mkTransaction 1000 10 None.
Definition resultTx11 : Transaction := mkTransaction 1100 11 None.

Definition H : HashValue := 500.
Definition H' : HashValue := 501.

Definition share (b : Byte.byte) : Bytes := [b].

Definition R1 : request := mkRequest 1 (Some [Byte.x01]) [false; true; false; false] [true; false; true; false].
Definition R2 : request := mkRequest 2 (Some [Byte.x02]) [false; false; false; true] [false; true; false; false].
Definition R3 : request := mkRequest 3 None [false; true; true; false] [false; false; false; true].

Definition bal : Balances := [(0, 100)].

(** An operator with balances, no round in flight and the batch [R1, R2]. *)
Definition opIdle : operator :=
  mkOperator committee4 (Some stateTx10) (Some (mkVariableState 10)) (Some bal)
    0 None [R1; R2] [mkComputationRequest R1 false] [].

(** The same with a third request whose message has not arrived. *)
Definition opIncomplete : operator :=
  mkOperator committee4 (Some stateTx10) (Some (mkVariableState 10)) (Some bal)
    0 None [R1; R2; R3] [mkComputationRequest R1 false] [].

(** The same node before it knows the balances. *)
Definition opNoBalances : operator :=
  mkOperator committee4 (Some stateTx10) (Some (mkVariableState 10)) None
    0 None [R1; R2] [mkComputationRequest R1 false] [].

Definition round (results : list (option signedResult)) (fin : bool)
    : LeaderStatus :=
  mkLeaderStatus [R1; R2] 3 5000 (Some resultTx11) fin results.

Definition inRound (ls : LeaderStatus) : operator :=
  mkOperator committee4 (Some stateTx10) (Some (mkVariableState 10)) (Some bal)
    0 (Some ls) [R1; R2] [mkComputationRequest R1 false] [].

(** Three peers, the leader among them, report [H]; the fourth reports [H']. *)
Definition opQuorum : operator :=
  inRound (round [Some (mkSignedResult H (share Byte.x0a));
                  Some (mkSignedResult H (share Byte.x0b));
                  Some (mkSignedResult H' (share Byte.x0c));
                  Some (mkSignedResult H (share Byte.x0d))] false).

(** Only the leader's own result has arrived. *)
Definition opOwnOnly : operator :=
  inRound (round [Some (mkSignedResult H (share Byte.x0a)); None; None; None]
             false).

(** Every peer has reported, two of them [H]. *)
Definition opSplit : operator :=
  inRound (round [Some (mkSignedResult H (share Byte.x0a));
                  Some (mkSignedResult H' (share Byte.x0b));
                  Some (mkSignedResult H' (share Byte.x0c));
                  Some (mkSignedResult H (share Byte.x0d))] false).

(** The round of [opQuorum] with its [finalized] flag set. *)
Definition opFinalized : operator :=
  inRound (round [Some (mkSignedResult H (share Byte.x0a));
                  Some (mkSignedResult H (share Byte.x0b));
                  Some (mkSignedResult H' (share Byte.x0c));
                  Some (mkSignedResult H (share Byte.x0d))] true).

(** Three peers have reported [H]; the fourth has not reported. *)
Definition opThreeOfFour : operator :=
  inRound (round [Some (mkSignedResult H (share Byte.x0a));
                  Some (mkSignedResult H (share Byte.x0b));
                  None;
                  Some (mkSignedResult H (share Byte.x0d))] false).

(** A selection policy that takes the requests of the current state which
    the subordinate bookkeeping has not marked yet. *)
Definition unprocessedFirst : Collaborators := {|
  iAmCurrentLeader := fun _ => true;
  selectRequestsToProcess := fun op =>
    req <$> filter (fun cr => processed cr = false)
              (currentStateCompRequests op);
  GetRewardAddress := fun a => Some a;
  BatchHash := fun ids => foldr Z.add 0 ids;
  RecoverFullSignature := fun shares _ => Some (concat shares);
  SignaturesValid := fun tx =>
    match txSignature tx with Some _ => true | None => false end
|}.

(** A network on which [n] sends succeed, at time [5000]. *)
Definition tick (now : Time) (n : Z) : Tick :=
  mkTick now now (fun _ => (n, 5000)).

End Demo.

(** ** Further readings of action.go *)

(** [op'] is [op] except, at most, for the signature that the round's
    resultTx carries. *)
Definition sameButSignature (op op' : operator) : Prop :=
  committee op' = committee op
  /\ stateTx op' = stateTx op
  /\ variableState op' = variableState op
  /\ balances op' = balances op
  /\ getBalancesDeadline op' = getBalancesDeadline op
  /\ requests op' = requests op
  /\ currentStateCompRequests op' = currentStateCompRequests op
  /\ nextStateCompRequests op' = nextStateCompRequests op
  /\ match leaderStatus op, leaderStatus op' with
     | None, None => True
     | Some ls, Some ls' =>
         reqs ls' = reqs ls /\ batchHash ls' = batchHash ls /\ ts ls' = ts ls
         /\ finalized ls' = finalized ls
         /\ signedResults ls' = signedResults ls
         /\ match resultTx ls, resultTx ls' with
            | None, None => True
            | Some tx, Some tx' =>
                txID tx' = txID tx /\ txStateIndex tx' = txStateIndex tx
            | _, _ => False
            end
     | _, _ => False
     end.

(** The addresses whose balances a trace requests from the node. *)
Definition requested (tr : list event) : list Address :=
  omap (fun e => match e with
                 | EvRequestBalancesFromNode a => Some a
                 | _ => None
                 end) tr.

(** The StartProcessing messages a trace sends to the peers. *)
Definition broadcast (tr : list event) : list StartProcessingReqMsg :=
  omap (fun e => match e with
                 | EvSendMsgToPeers m => Some m
                 | _ => None
                 end) tr.

(** The result of a call that returned. *)
Definition result {A} (o : outcome A) : option A :=
  match o with
  | Returned a _ _ => Some a
  | Panicked _ _ _ => None
  end.

(** The operator [setNewState] has made when it reaches its loop over the
    requests. *)
Definition resetFor (now : Time) (tx : Transaction) (vs : VariableState)
    (op : operator) : operator :=
  mkOperator (committee op) (Some tx) (Some vs) None now None (requests op)
    (nextStateCompRequests op) [].

(** A relation between the operator a call receives, the operator it
    leaves, its trace and whether it returned, that a computation satisfies
    on every operator. *)
Definition respects {A}
    (T : operator -> operator -> list event -> bool -> Prop) (m : M A) : Prop :=
  forall op, T op (final (m op)) (events (m op)) (returns (m op)).

(** What ticks leave alone: the committee, the state, the balances, the
    requests with their notification vectors, the requests noted for the
    next state, and the identity and recorded shares of a round in flight. *)
Definition keptByTicks (op op' : operator) : Prop :=
  committee op' = committee op
  /\ stateTx op' = stateTx op
  /\ variableState op' = variableState op
  /\ balances op' = balances op
  /\ requests op' = requests op
  /\ nextStateCompRequests op' = nextStateCompRequests op
  /\ forall ls, leaderStatus op = Some ls ->
       exists ls', leaderStatus op' = Some ls'
         /\ reqs ls' = reqs ls /\ batchHash ls' = batchHash ls
         /\ ts ls' = ts ls /\ finalized ls' = finalized ls
         /\ signedResults ls' = signedResults ls.

Section Runs.
Context `{Collaborators}.

(** A run of ticks: [takeAction] on each tick in turn; a panic ends it. *)
Fixpoint takeActions (ticks : list Tick) : M unit :=
  match ticks with
  | [] => ret tt
  | t :: rest => run takeAction t; takeActions rest
  end.

End Runs.

(** ** More operators of the committee of four *)
Module Scenarios.
#[local] Open Scope Z_scope.

(** A request whose message has arrived but whose notification vectors are
    empty. *)
Definition R4 : request := mkRequest 4 (Some [Byte.x04]) [] [].

(** The idle operator of [Demo] with [R4] among its requests. *)
Definition opShort : operator :=
  mkOperator Demo.committee4 (Some Demo.stateTx10) (Some (mkVariableState 10))
    (Some Demo.bal) 0 None [Demo.R1; R4; Demo.R2]
    [mkComputationRequest Demo.R1 false] [].

(** Ticks at times 10, 20 and 2000000000, with the clock standing still
    within a tick. *)
Definition ticks3 : list Tick :=
  [Demo.tick 10 0; Demo.tick 20 0; Demo.tick 2000000000 0].

End Scenarios.

(** * The backlog of a solo chain (packages/solo/solo.go)

    [addToBacklog], [collateBatch], [RequestsByChain] and
    [RequestsForChain].  The functions run under the chain's mutexes and
    are embedded as what they do to the backlog.  The logical clock is not
    under these mutexes and may move while [collateBatch] runs: its readings
    are a parameter, one for every iteration of the loop.  What the
    functions ask of a request or of an output of a ledger transaction
    (types of other packages) is a parameter too. *)
Module Solo.

(** [req.Output().TimeLock()], in seconds (0: no time lock), and
    [req.Output().ID()]. *)
Class RequestOps (Request : Type) := {
  TimeLock : Request -> Z;
  OutputID : Request -> Z
}.

(** The type assertion of [out] to an ExtendedLockedOutput together with
    [o.Address().Array()]: the address of an extended locked output,
    nothing for another output; and [sctransaction.RequestFromOutput]. *)
Class OutputOps (Output Sender Request : Type) := {
  extendedLockedAddress : Output -> option Address;
  RequestFromOutput : Output -> Sender -> Request
}.

(** The lines the backlog writes to the chain's log (the time-locked line
    without the remaining duration it prints). *)
Inductive logLine :=
| AddedToBacklog (id : Z) (len : nat)
| AddedTimeLocked (id : Z)
| UnlockedTimeLocked (id : Z).

Section Backlog.
Context `{RequestOps Request}.

Definition addToBacklog (r : Request) (backlog : list Request)
    : list Request * logLine :=
  let backlog' := backlog ++ [r] in
  (backlog',
   if (TimeLock r =? 0)%Z then AddedToBacklog (OutputID r) (length backlog')
   else AddedTimeLocked (OutputID r)).

(** The loop of [collateBatch].  [remain := ch.backlog[:0]] shares the array
    of the backlog: [arr] is that array, of which [remain] is the first
    [remainLen] entries, and [append(remain, req)] writes into it while the
    loop is still reading it. *)
Record collate := mkCollate {
  arr : list Request;
  remainLen : nat;
  ret : list Request;
  logged : list logLine
}.

(** The body of the loop on [req]; [now] is [ch.Env.LogicalTime().Unix()]
    as this iteration reads it. *)
Definition collateStep (now : Z) (st : collate) (req : Request) : collate :=
  if (TimeLock req <=? now)%Z then
    mkCollate (arr st) (remainLen st) (ret st ++ [req])
      (if (TimeLock req =? 0)%Z then logged st
       else logged st ++ [UnlockedTimeLocked (OutputID req)])
  else
    mkCollate (<[remainLen st := req]> (arr st)) (S (remainLen st))
      (ret st) (logged st).

(** [for _, req := range ch.backlog]: [n] iterations are left and the next
    one reads entry [i] of the array.  The loop holds the mutex of the
    backlog, not that of the logical clock, which it reads afresh in every
    iteration: [clock i] is the reading of iteration [i]. *)
Fixpoint collateLoop (clock : nat -> Z) (i n : nat) (st : collate) : collate :=
  match n with
  | 0 => st
  | S n' =>
      match arr st !! i with
      | Some req => collateLoop clock (S i) n' (collateStep (clock i) st req)
      | None => st
      end
  end.

(** What [collateBatch] returns, the backlog it leaves and what it logs. *)
Record collated := mkCollated {
  batch : list Request;
  backlogAfter : list Request;
  logLines : list logLine
}.

Definition collateBatch (clock : nat -> Z) (backlog : list Request)
    : collated :=
  let st := collateLoop clock 0 (length backlog) (mkCollate backlog 0 [] []) in
  mkCollated (ret st) (take (remainLen st) (arr st)) (logged st).

(** The requests of [rs] with the clock readings of their iterations, the
    first of which is iteration [i]; and a request that its reading
    releases. *)
Definition stamped (clock : nat -> Z) (i : nat) (rs : list Request)
    : list (Request * Z) :=
  zip rs (clock <$> seq i (length rs)).

Definition released (p : Request * Z) : Prop := (TimeLock (fst p) <= snd p)%Z.

#[export] Instance released_dec p : Decision (released p).
Proof. unfold released. apply _. Defined.

End Backlog.

Section Dispatch.
Context `{OutputOps Output Sender Request}.

(** [RequestsByChain], on the outputs of the transaction's essence and the
    sender that [GetSingleSender] found. *)
Definition RequestsByChain (outputs : list Output) (sender : Sender)
    : gmap Address (list Request) :=
  foldl (fun ret out =>
           match extendedLockedAddress out with
           | None => ret
           | Some a =>
               <[a := default [] (ret !! a) ++ [RequestFromOutput out sender]]> ret
           end) ∅ outputs.

Definition RequestsForChain (outputs : list Output) (sender : Sender)
    (chid : Address) : list Request :=
  default [] (RequestsByChain outputs sender !! chid).

End Dispatch.

(** Requests given by the id and the time lock of their output, and outputs
    by their kind, address and id. *)
Definition pairRequest : RequestOps (Z * Z) :=
  {| OutputID := fst; TimeLock := snd |}.

Definition pairOutput : OutputOps (bool * Address * Z) Z (Z * Z) :=
  {| extendedLockedAddress := fun out : bool * Address * Z =>
       if fst (fst out) then Some (snd (fst out)) else None;
     RequestFromOutput := fun (out : bool * Address * Z) (sender : Z) =>
       (snd out, sender) |}.

End Solo.

(** * The root contract's utilities (packages/vm/builtinvm/root/util.go)

    [FindContract], [GetFeeInfo] and [DecodeContractRegistry].  The state,
    the contract records and the codecs belong to other packages and are
    parameters: what the functions read of the state is given by the four
    readers below. *)
Module Root.

Definition Hname := Z.
Definition Color := Z.

Class Store := {
  KVStore : Type;
  ContractRecord : Type;
  DecodeError : Type;
  (** [rec.OwnerFee] and [rec.ValidatorFee] *)
  OwnerFee : ContractRecord -> Z;
  ValidatorFee : ContractRecord -> Z;
  (** [Interface.Hname()] and [RootContractRecord] *)
  InterfaceHname : Hname;
  RootContractRecord : ContractRecord;
  (** [balance.ColorIOTA] *)
  ColorIOTA : Color;
  (** [datatypes.NewMustMap(state, VarContractRegistry).GetAt(hname.Bytes())] *)
  contractRegistryGetAt : KVStore -> Hname -> option Bytes;
  (** [DecodeContractRecord] and [coretypes.NewHnameFromBytes] *)
  DecodeContractRecord : Bytes -> DecodeError + ContractRecord;
  NewHnameFromBytes : Bytes -> DecodeError + Hname;
  (** [codec.DecodeColor(state.MustGet(VarFeeColor))], and
      [codec.DecodeInt64] of [VarDefaultOwnerFee] and
      [VarDefaultValidatorFee]: the value when the codec says ok. *)
  feeColorVar : KVStore -> option Color;
  defaultOwnerFeeVar : KVStore -> option Z;
  defaultValidatorFeeVar : KVStore -> option Z
}.

Section Util.
Context `{Store}.

(** The two errors of [FindContract]: "root: contract %s not found" and
    "root: %v" around the decoder's error. *)
Inductive rootError :=
| ErrContractNotFound (hname : Hname)
| ErrRoot (cause : DecodeError).

Definition FindContract (state : KVStore) (hname : Hname)
    : rootError + ContractRecord :=
  if bool_decide (hname = InterfaceHname) then inr RootContractRecord
  else
    match contractRegistryGetAt state hname with
    | None => inl (ErrContractNotFound hname)
    | Some retBin =>
        match DecodeContractRecord retBin with
        | inl err => inl (ErrRoot err)
        | inr ret => inr ret
        end
    end.

Definition GetFeeInfo (state : KVStore) (hname : Hname)
    : rootError + (Color * Z * Z) :=
  match FindContract state hname with
  | inl err => inl err
  | inr rec =>
      let feeColor :=
        match feeColorVar state with
        | Some c => c
        | None => ColorIOTA
        end in
      let ownerFee :=
        if (OwnerFee rec =? 0)%Z then
          match defaultOwnerFeeVar state with
          | Some f => f
          | None => OwnerFee rec
          end
        else OwnerFee rec in
      let validatorFee :=
        if (ValidatorFee rec =? 0)%Z then
          match defaultValidatorFeeVar state with
          | Some f => f
          | None => ValidatorFee rec
          end
        else ValidatorFee rec in
      inr (feeColor, ownerFee, validatorFee)
  end.

(** [DecodeContractRegistry] on the entries of the registry in the order
    [Iterate] visits them; the callback stops the iteration at the first
    entry that does not decode, and the map built so far is returned with
    the error. *)
Fixpoint decodeEntries (entries : list (Bytes * Bytes))
    (ret : gmap Hname ContractRecord)
    : gmap Hname ContractRecord * option DecodeError :=
  match entries with
  | [] => (ret, None)
  | (k, v) :: rest =>
      match NewHnameFromBytes k with
      | inl err => (ret, Some err)
      | inr deploymentHash =>
          match DecodeContractRecord v with
          | inl err => (ret, Some err)
          | inr cr => decodeEntries rest (<[deploymentHash := cr]> ret)
          end
      end
  end.

Definition DecodeContractRegistry (entries : list (Bytes * Bytes))
    : gmap Hname ContractRecord * option DecodeError :=
  decodeEntries entries ∅.

(** An entry that decodes, and the entries up to the first that does not. *)
Definition decodeEntry (e : Bytes * Bytes) : option (Hname * ContractRecord) :=
  match NewHnameFromBytes (fst e), DecodeContractRecord (snd e) with
  | inr h, inr cr => Some (h, cr)
  | _, _ => None
  end.

Fixpoint decodedPrefix (entries : list (Bytes * Bytes))
    : list (Hname * ContractRecord) :=
  match entries with
  | [] => []
  | e :: rest =>
      match decodeEntry e with
      | Some d => d :: decodedPrefix rest
      | None => []
      end
  end.

End Util.

(** A store given by its registry and its three fee variables; records are
    their two fees, one byte decodes to the fee pair it repeats, and a key
    is the one byte of a name. *)
Definition simpleStore : Store := {|
  KVStore := gmap Hname Bytes * option Color * option Z * option Z;
  ContractRecord := Z * Z;
  DecodeError := unit;
  OwnerFee := fst;
  ValidatorFee := snd;
  InterfaceHname := 0%Z;
  RootContractRecord := (0%Z, 0%Z);
  ColorIOTA := 0%Z;
  contractRegistryGetAt := fun st h => fst (fst (fst st)) !! h;
  DecodeContractRecord := fun b =>
    match b with
    | [x] => inr (Z.of_N (Byte.to_N x), Z.of_N (Byte.to_N x))
    | _ => inl tt
    end;
  NewHnameFromBytes := fun b =>
    match b with
    | [x] => inr (Z.of_N (Byte.to_N x))
    | _ => inl tt
    end;
  feeColorVar := fun st => snd (fst (fst st));
  defaultOwnerFeeVar := fun st => snd (fst st);
  defaultValidatorFeeVar := fun st => snd st
|}.

End Root.

(** * The cluster test setup (tools/cluster/tests/wasptest_new/setup.go) *)
Module WaspTest.

(** Go's [int] is a signed integer of [strconv.IntSize] bits, 32 or 64 with
    the platform, and its addition wraps around: [intBits] is that size and
    [addInt] the sum of two values of the type. *)
Definition wrapInt (intBits : Z) (z : Z) : Z :=
  ((z + 2 ^ (intBits - 1)) mod 2 ^ intBits - 2 ^ (intBits - 1))%Z.

Definition addInt (intBits : Z) (a b : Z) : Z := wrapInt intBits (a + b).

(** The message counts [setupAndLoad] hands to [clu.ListenToMessages]: the
    map literal, then [for k, v := range expectedMessages] over it. *)
Definition defaultExpectations (intBits : Z) (nrOfRequests : Z)
    : gmap string Z :=
  <["chainrec" := 2%Z]> (
  <["active_committee" := 1%Z]> (
  <["dismissed_committee" := 0%Z]> (
  <["state" := addInt intBits 3 nrOfRequests]> (
  <["request_in" := addInt intBits 2 nrOfRequests]> (
  <["request_out" := addInt intBits 3 nrOfRequests]> ∅))))).

Definition expectations (intBits : Z) (nrOfRequests : Z)
    (expectedMessages : gmap string Z) : gmap string Z :=
  map_fold (fun k v acc => <[k := v]> acc)
    (defaultExpectations intBits nrOfRequests) expectedMessages.

(** The keys of the map literal. *)
Definition defaultKeys : list string :=
  ["chainrec"; "active_committee"; "dismissed_committee"; "state";
   "request_in"; "request_out"].

End WaspTest.

(** * Minting in the solo environment (packages/solo/solofun.go)

    [MintTokens], under the ledger mutex.  The ledger, the transaction
    builder and the wallets belong to other packages and are parameters; a
    builder method that changes the builder returns the builder it leaves. *)
Module SoloFun.

(** [DustThresholdIotas = uint64(100)] *)
Definition DustThresholdIotas : Z := 100.

Class Ledger := {
  KeyPair : Type;
  Outputs : Type;
  Builder : Type;
  Tx : Type;
  UtxoDB : Type;
  LedgerError : Type;
  (** [ledgerstate.NewED25519Address(wallet.PublicKey)] *)
  walletAddress : KeyPair -> Address;
  GetAddressOutputs : UtxoDB -> Address -> Outputs;
  NewBuilder : Outputs -> Builder;
  (** [txb.AddExtendedOutputSimple(addr, nil, bals, amount)] *)
  AddExtendedOutputSimple :
    Builder -> Address -> gmap Root.Color Z -> Z -> LedgerError + Builder;
  (** [txb.AddReminderOutputIfNeeded(addr, nil, true)] *)
  AddReminderOutputIfNeeded : Builder -> Address -> LedgerError + Builder;
  BuildWithED25519 : Builder -> KeyPair -> LedgerError + Tx;
  (** [env.AddToLedger(tx)], which is [env.utxoDB.AddTransaction(tx)] *)
  AddTransaction : UtxoDB -> Tx -> LedgerError + UtxoDB;
  GetMintedAmounts : Tx -> gmap Root.Color Z;
  ColorIOTA : Root.Color
}.

Section Mint.
Context `{Ledger}.

(** What a call of [MintTokens] comes to: the colour and the error it
    returns with the ledger it leaves, or the failure of the test at
    [require.EqualValues(env.T, 1, len(m))]. *)
Inductive minted :=
| MintReturned (color : Root.Color) (err : option LedgerError) (ledger : UtxoDB)
| MintTestFailed (ledger : UtxoDB).

(** [[32]byte{}] *)
Definition zeroColor : Root.Color := 0%Z.

Definition MintTokens (ledger : UtxoDB) (wallet : KeyPair) (amount : Z)
    : minted :=
  let addr := walletAddress wallet in
  let allOuts := GetAddressOutputs ledger addr in
  let txb := NewBuilder allOuts in
  let numIotas :=
    if (DustThresholdIotas <? amount)%Z then amount else DustThresholdIotas in
  let bals : gmap Root.Color Z := {[ColorIOTA := amount]} in
  match AddExtendedOutputSimple txb addr bals amount with
  | inl err => MintReturned zeroColor (Some err) ledger
  | inr txb1 =>
  match AddReminderOutputIfNeeded txb1 addr with
  | inl err => MintReturned zeroColor (Some err) ledger
  | inr txb2 =>
  match BuildWithED25519 txb2 wallet with
  | inl err => MintReturned zeroColor (Some err) ledger
  | inr tx =>
  match AddTransaction ledger tx with
  | inl _ => MintReturned zeroColor None ledger
  | inr ledger' =>
      match map_to_list (GetMintedAmounts tx) with
      | [(col, _)] => MintReturned col None ledger'
      | _ => MintTestFailed ledger'
      end
  end end end end.

(** The transaction [MintTokens] builds, or the error of the builder. *)
Definition mintTransaction (ledger : UtxoDB) (wallet : KeyPair) (amount : Z)
    : LedgerError + Tx :=
  let addr := walletAddress wallet in
  match AddExtendedOutputSimple (NewBuilder (GetAddressOutputs ledger addr))
          addr {[ColorIOTA := amount]} amount with
  | inl err => inl err
  | inr txb1 =>
      match AddReminderOutputIfNeeded txb1 addr with
      | inl err => inl err
      | inr txb2 => BuildWithED25519 txb2 wallet
      end
  end.

End Mint.

(** A ledger that is the list of its transactions and accepts a transaction
    once; a transaction is the amount it mints, in the colour of that
    amount, and cannot be built for amount 0. *)
Definition listLedger : Ledger := {|
  KeyPair := Z;
  Outputs := unit;
  Builder := Z;
  Tx := Z;
  UtxoDB := list Z;
  LedgerError := unit;
  walletAddress := fun w => w;
  GetAddressOutputs := fun _ _ => tt;
  NewBuilder := fun _ => 0%Z;
  AddExtendedOutputSimple := fun _ _ _ amount =>
    if (amount =? 0)%Z then inl tt else inr amount;
  AddReminderOutputIfNeeded := fun txb _ => inr txb;
  BuildWithED25519 := fun txb _ => inr txb;
  AddTransaction := fun ledger tx =>
    if bool_decide (tx ∈ ledger) then inl tt else inr (tx :: ledger);
  GetMintedAmounts := fun tx => {[tx := tx]};
  ColorIOTA := 0%Z
|}.

End SoloFun.

(** * Sample inputs *)
Module Samples.
#[local] Open Scope Z_scope.

(** Requests by id and time lock: no lock, locked until 50, until 10. *)
Definition backlog3 : list (Z * Z) := [(1, 0); (2, 50); (3, 10)].

(** Two requests locked until 20, and a logical clock that reads 10 in the
    first iteration of a loop and 30 from the second on. *)
Definition backlog2 : list (Z * Z) := [(1, 20); (2, 20)].

Definition clock1030 (i : nat) : Z :=
  match i with
  | 0%nat => 10
  | _ => 30
  end.

(** Outputs by kind (extended locked or not), address and id. *)
Definition outputs4 : list (bool * Address * Z) :=
  [(true, 5, 100); (false, 5, 101); (true, 6, 102); (true, 5, 103)].

(** A chain whose registry has a record with fees 3 under name 7; no fee
    colour, default owner fee 25, no default validator fee. *)
Definition store7 : @Root.KVStore Root.simpleStore :=
  ({[7 := [Byte.x03]]}, None, Some 25, None).

(** The same chain with an entry under the name of the root contract (0),
    which decodes to a record with fees 5. *)
Definition store0 : @Root.KVStore Root.simpleStore :=
  ({[0 := [Byte.x05]; 7 := [Byte.x03]]}, None, Some 25, None).

(** Registry entries of which the second has a key that is no name. *)
Definition entries3 : list (Bytes * Bytes) :=
  [([Byte.x07], [Byte.x03]); ([Byte.x08; Byte.x00], [Byte.x04]);
   ([Byte.x09], [Byte.x05])].

End Samples.

(** * Properties *)

(** ** The monad *)

Ltac unfold_monad :=
  unfold log, deref, index, bind, ret, get, put, emit, throw in *.

(** Membership of an event in an explicit trace. *)
Ltac in_trace H :=
  repeat (first [ apply elem_of_nil in H; contradiction
                | apply elem_of_app in H as [H|H]
                | apply elem_of_cons in H as [H|H];
                  [try discriminate H|] ]).

Lemma bind_assoc {A B C} (m : M A) (k : A -> M B) (h : B -> M C) op :
  bind (bind m k) h op = bind m (fun a => bind (k a) h) op.
Proof.
  unfold bind. destruct (m op) as [a op1 t1|p op1 t1]; [|reflexivity].
  destruct (k a op1) as [b op2 t2|p op2 t2]; [|reflexivity].
  destruct (h b op2) as [c op3 t3|p op3 t3]; by rewrite app_assoc.
Qed.

Lemma events_bind_l {A B} (m : M A) (k : A -> M B) (op : operator) e :
  e ∈ events (m op) -> e ∈ events (bind m k op).
Proof.
  unfold bind. destruct (m op) as [a op1 t1|p op1 t1]; [|done].
  simpl. intros Hin. destruct (k a op1); simpl; apply elem_of_app; by left.
Qed.

(** ** The loop of [checkQuorum] *)

Lemma collectSigShares_populated mainHash rs acc :
  collectSigShares mainHash (Some <$> rs) acc
  = Some (acc ++ matchingShares mainHash rs).
Proof.
  revert acc. induction rs as [|sr rs IH]; intros acc; simpl.
  - by rewrite app_nil_r.
  - unfold matchingShares. rewrite filter_cons.
    destruct (Z.eqb_spec (essenceHash sr) mainHash) as [Heq|Hne].
    + rewrite IH. rewrite decide_True by done.
      by rewrite fmap_cons, <- app_assoc.
    + rewrite IH. by rewrite decide_False by done.
Qed.

Lemma collectSigShares_nil_slot mainHash srs acc :
  None ∈ srs -> collectSigShares mainHash srs acc = None.
Proof.
  revert acc. induction srs as [|[sr|] srs IH]; intros acc Hin; simpl.
  - by apply elem_of_nil in Hin.
  - apply elem_of_cons in Hin as [Hin|Hin]; [done|].
    destruct (essenceHash sr =? mainHash)%Z; by apply IH.
  - done.
Qed.

Lemma populated_or_nil_slot (srs : list (option signedResult)) :
  (exists rs, srs = Some <$> rs) \/ None ∈ srs.
Proof.
  induction srs as [|[sr|] srs IH].
  - left. by exists [].
  - destruct IH as [[rs ->]|Hin].
    + left. by exists (sr :: rs).
    + right. by apply elem_of_cons; right.
  - right. by apply elem_of_cons; left.
Qed.

Section Properties.
Context `{Collaborators}.

(** ** checkQuorum *)

(** C9. Whenever LeaderStatus is absent, or its resultTx is unset, or the
    round is already finalized, [checkQuorum] returns false at once: the
    operator is returned as it was received and the only event is the debug
    line at entry, so nothing is aggregated or posted; the equation holds
    whatever the signature slots hold, also for slots that cannot be read
    (nil, or fewer than the own index). *)
Theorem checkQuorum_guard (op : operator) :
  (leaderStatus op = None \/
   exists ls, leaderStatus op = Some ls /\
              (resultTx ls = None \/ finalized ls = true)) ->
  checkQuorum op = Returned false op [EvLog Debug "checkQuorum"].
Proof.
  intros [Hnone|(ls & Hls & [Htx|Hfin])]; unfold checkQuorum; unfold_monad;
    simpl.
  - by rewrite Hnone.
  - by rewrite Hls, Htx.
  - rewrite Hls, Hfin. by destruct (resultTx ls).
Qed.

Lemma checkQuorum_populated (op : operator) ls tx rs own :
  leaderStatus op = Some ls -> resultTx ls = Some tx -> finalized ls = false ->
  signedResults ls = Some <$> rs ->
  rs !! OwnPeerIndex (committee op) = Some own ->
  checkQuorum op = afterCollect op ls tx (matchingShares (essenceHash own) rs).
Proof.
  intros Hls Htx Hfin Hsrs Hown.
  unfold checkQuorum, afterCollect, aggregateSigShares. unfold_monad. simpl.
  rewrite Hls, Htx, Hfin, Hsrs. rewrite list_lookup_fmap, Hown. simpl.
  rewrite collectSigShares_populated. simpl.
  destruct (Z.of_nat _ <? quorum op)%Z; [done|].
  rewrite Hls. simpl. rewrite Htx. simpl.
  destruct (RecoverFullSignature _ tx) as [sig|]; simpl; [|done].
  by destruct (SignaturesValid _).
Qed.

Lemma checkQuorum_nil_slot (op : operator) ls tx :
  leaderStatus op = Some ls -> resultTx ls = Some tx -> finalized ls = false ->
  OwnPeerIndex (committee op) < length (signedResults ls) ->
  None ∈ signedResults ls ->
  checkQuorum op = Panicked NilDereference op [EvLog Debug "checkQuorum"].
Proof.
  intros Hls Htx Hfin Hown Hnil.
  unfold checkQuorum. unfold_monad. simpl. rewrite Hls, Htx, Hfin.
  destruct (lookup_lt_is_Some_2 _ _ Hown) as [slot ->]. simpl.
  destruct slot as [own|]; simpl; [|done].
  by rewrite (collectSigShares_nil_slot _ _ _ Hnil).
Qed.

Lemma afterCollect_returns op ls tx shares :
  returns (afterCollect op ls tx shares) = true.
Proof.
  unfold afterCollect. repeat case_match; done.
Qed.

(** C4. Past its guard, [checkQuorum] dereferences every entry of
    signedResults: with the own index inside the slice it panics with a nil
    dereference exactly when some slot holds no result, and it returns when
    every slot holds one; and the slice [startProcessing] allocates for a
    new round has [Size()] entries, all of them nil. *)
Theorem checkQuorum_needs_every_slot (op : operator) ls tx :
  leaderStatus op = Some ls -> resultTx ls = Some tx -> finalized ls = false ->
  OwnPeerIndex (committee op) < length (signedResults ls) ->
  (checkQuorum op = Panicked NilDereference op [EvLog Debug "checkQuorum"]
   <-> exists i, signedResults ls !! i = Some None)
  /\ ((forall i, signedResults ls !! i <> Some None) ->
      returns (checkQuorum op) = true)
  /\ (forall t op0 op1 tr ls1,
        startProcessing t op0 = Returned tt op1 tr ->
        leaderStatus op0 = None -> leaderStatus op1 = Some ls1 ->
        signedResults ls1 = replicate (Size (committee op0)) None).
Proof.
  intros Hls Htx Hfin Hown.
  assert (Hpop : forall rs, signedResults ls = Some <$> rs ->
                   returns (checkQuorum op) = true).
  { intros rs Hrs.
    assert (is_Some (rs !! OwnPeerIndex (committee op))) as [own Hlk].
    { apply lookup_lt_is_Some_2. by rewrite Hrs, length_fmap in Hown. }
    rewrite (checkQuorum_populated op ls tx rs own) by done.
    apply afterCollect_returns. }
  split; [split|split].
  - intros Hp. destruct (populated_or_nil_slot (signedResults ls))
      as [[rs Hrs]|Hin].
    + specialize (Hpop rs Hrs). by rewrite Hp in Hpop.
    + by apply list_elem_of_lookup in Hin.
  - intros Hex. apply (checkQuorum_nil_slot op ls tx); try done.
    by apply list_elem_of_lookup.
  - intros Hall. destruct (populated_or_nil_slot (signedResults ls))
      as [[rs Hrs]|Hin]; [by eapply Hpop|].
    apply list_elem_of_lookup in Hin as [i Hi]. by destruct (Hall i).
  - intros t op0 op1 tr ls1 Hrun Hnone Hsome.
    unfold startProcessing in Hrun. unfold_monad. simpl in Hrun.
    rewrite Hnone in Hrun.
    repeat (case_match; simplify_eq/=); try congruence.
Qed.

Lemma elem_of_matchingShares mainHash rs s :
  s ∈ matchingShares mainHash rs
  <-> exists sr, sr ∈ rs /\ essenceHash sr = mainHash /\ sigShare sr = s.
Proof.
  unfold matchingShares. rewrite list_elem_of_fmap. split.
  - intros (sr & -> & Hin). apply list_elem_of_filter in Hin as [Hh Hin].
    by exists sr.
  - intros (sr & Hin & Hh & <-). exists sr. split; [done|].
    by apply list_elem_of_filter.
Qed.

(** The aggregation set of a round in which every peer's result has been
    recorded.  The set [checkQuorum] builds is exactly the shares of the
    recorded results whose essenceHash equals this node's own (a share is in
    it iff some peer recorded it with that hash); below quorum()
    [checkQuorum] returns false with the operator untouched and nothing
    aggregated; and what it does otherwise, it does with exactly that set. *)
Theorem checkQuorum_aggregates_matching_shares (op : operator) ls tx rs own :
  leaderStatus op = Some ls -> resultTx ls = Some tx -> finalized ls = false ->
  signedResults ls = Some <$> rs ->
  rs !! OwnPeerIndex (committee op) = Some own ->
  let shares := matchingShares (essenceHash own) rs in
  collectSigShares (essenceHash own) (signedResults ls) [] = Some shares
  /\ (forall s, s ∈ shares <->
        exists sr, sr ∈ rs /\ essenceHash sr = essenceHash own
                   /\ sigShare sr = s)
  /\ ((Z.of_nat (length shares) < quorum op)%Z ->
      checkQuorum op = Returned false op [EvLog Debug "checkQuorum"])
  /\ checkQuorum op = afterCollect op ls tx shares.
Proof.
  intros Hls Htx Hfin Hrs Hown shares.
  pose proof (checkQuorum_populated op ls tx rs own Hls Htx Hfin Hrs Hown)
    as Heq.
  split; [|split; [|split]].
  - rewrite Hrs. apply collectSigShares_populated.
  - intros s. apply elem_of_matchingShares.
  - intros Hlt. rewrite Heq. unfold afterCollect. fold shares.
    by rewrite (proj2 (Z.ltb_lt _ _) Hlt).
  - exact Heq.
Qed.

(** A call of [checkQuorum] that returns true went through the aggregation
    of a fully recorded round. *)
Lemma checkQuorum_true_inv (op op' : operator) tr :
  checkQuorum op = Returned true op' tr ->
  exists ls tx rs own,
    leaderStatus op = Some ls /\ resultTx ls = Some tx /\ finalized ls = false
    /\ signedResults ls = Some <$> rs
    /\ rs !! OwnPeerIndex (committee op) = Some own
    /\ afterCollect op ls tx (matchingShares (essenceHash own) rs)
       = Returned true op' tr.
Proof.
  intros Hrun.
  destruct (leaderStatus op) as [ls|] eqn:Hls;
    [|unfold checkQuorum in Hrun; unfold_monad; simpl in Hrun;
      by rewrite Hls in Hrun].
  destruct (resultTx ls) as [tx|] eqn:Htx;
    [|unfold checkQuorum in Hrun; unfold_monad; simpl in Hrun;
      by rewrite Hls, Htx in Hrun].
  destruct (finalized ls) eqn:Hfin;
    [unfold checkQuorum in Hrun; unfold_monad; simpl in Hrun;
     by rewrite Hls, Htx, Hfin in Hrun|].
  destruct (decide (OwnPeerIndex (committee op) < length (signedResults ls)))
    as [Hlt|Hge].
  - destruct (populated_or_nil_slot (signedResults ls)) as [[rs Hrs]|Hin].
    + assert (is_Some (rs !! OwnPeerIndex (committee op))) as [own Hown].
      { apply lookup_lt_is_Some_2. by rewrite Hrs, length_fmap in Hlt. }
      exists ls, tx, rs, own. repeat split; try done.
      by rewrite <- (checkQuorum_populated op ls tx rs own).
    + by rewrite (checkQuorum_nil_slot op ls tx) in Hrun.
  - exfalso. unfold checkQuorum in Hrun. unfold_monad. simpl in Hrun.
    rewrite Hls, Htx, Hfin in Hrun.
    rewrite (lookup_ge_None_2 (signedResults ls)) in Hrun by lia. done.
Qed.

(** A successful [checkQuorum] leaves the round's [finalized] flag false,
    so its guard lets the next call through. *)
Lemma checkQuorum_true_not_finalized (op op' : operator) tr :
  checkQuorum op = Returned true op' tr ->
  exists ls', leaderStatus op' = Some ls' /\ finalized ls' = false
              /\ resultTx ls' <> None.
Proof.
  intros Hrun.
  apply checkQuorum_true_inv in Hrun
    as (ls & tx & rs & own & Hls & Htx & Hfin & _ & _ & Hafter).
  unfold afterCollect in Hafter.
  repeat (case_match; simplify_eq/=).
  eexists. split; [reflexivity|]. by simpl.
Qed.

(** ** startProcessing *)

Lemma startProcessing_early t (op : operator) :
  balances op = None \/ leaderStatus op <> None ->
  startProcessing t op = Returned tt op [].
Proof.
  intros [Hb|Hl]; unfold startProcessing; unfold_monad; simpl.
  - by rewrite Hb.
  - destruct (balances op); [|done]. by destruct (leaderStatus op).
Qed.

Lemma startProcessing_empty t (op : operator) bal :
  balances op = Some bal -> leaderStatus op = None ->
  selectRequestsToProcess op = [] ->
  startProcessing t op
  = Returned tt op [EvLog Debug "can't select request to process"].
Proof.
  intros Hb Hl Hsel. unfold startProcessing; unfold_monad; simpl.
  by rewrite Hb, Hl, Hsel.
Qed.

Lemma startProcessing_unsent t (op : operator) bal :
  balances op = Some bal -> leaderStatus op = None ->
  selectRequestsToProcess op <> [] ->
  stateTx op = None
  \/ GetRewardAddress (committeeAddress (committee op)) = None ->
  exists tr, startProcessing t op = Panicked NilDereference op tr
             /\ forall m, EvSendMsgToPeers m ∉ tr.
Proof.
  intros Hb Hl Hsel Hnil. unfold startProcessing; unfold_monad; simpl.
  rewrite Hb, Hl.
  rewrite bool_decide_false by (by destruct (selectRequestsToProcess op)).
  destruct (stateTx op) as [stx|]; simpl.
  - destruct Hnil as [? | ->]; [done|]. simpl. eexists. split; [done|].
    intros m Hin. in_trace Hin.
  - eexists. split; [done|]. intros m Hin. in_trace Hin.
Qed.

Lemma startProcessing_selected t (op : operator) bal stx reward :
  balances op = Some bal -> leaderStatus op = None ->
  selectRequestsToProcess op <> [] ->
  stateTx op = Some stx ->
  GetRewardAddress (committeeAddress (committee op)) = Some reward ->
  let m := startProcessingMsg op stx reward bal in
  startProcessing t op =
    if (fst (SendMsgToPeers t m) <? quorum op - 1)%Z then
      Returned tt op
        (sentTrace m ++
         [EvLog Error "only %d 'msgStartProcessingRequest' sends succeeded"])
    else if snd (takeMsgs (selectRequestsToProcess op)) then
      Returned tt
        (set_leaderStatus (Some (newRound op (snd (SendMsgToPeers t m)))) op)
        (sentTrace m ++
         [EvLog Debug "msgStartProcessingRequest successfully sent to %d peers";
          EvGoProcessRequest
            (mkRunCalculationsParams
               (fst (takeMsgs (selectRequestsToProcess op)))
               (snd (SendMsgToPeers t m)) bal reward
               (OwnPeerIndex (committee op)))])
    else
      Panicked (PanicMsg "some req messages are nil") op (sentTrace m).
Proof.
  intros Hb Hl Hsel Hstx Hrew m.
  unfold startProcessing; unfold_monad; simpl.
  rewrite Hb, Hl, Hstx.
  rewrite bool_decide_false by (by destruct (selectRequestsToProcess op)).
  simpl. rewrite Hrew. simpl. fold (startProcessingMsg op stx reward bal).
  fold m. destruct (_ <? _)%Z; [done|].
  by destruct (takeMsgs (selectRequestsToProcess op)) as [msgs []].
Qed.

Lemma takeMsgs_nil_message (rs : list request) :
  snd (takeMsgs rs) = false <-> exists r, r ∈ rs /\ reqMsg r = None.
Proof.
  induction rs as [|r rs IH]; simpl.
  - split; [done|]. intros (r & Hin & _). by apply elem_of_nil in Hin.
  - destruct (reqMsg r) as [m|] eqn:Hm.
    + destruct (takeMsgs rs) as [ms [|]]; simpl in *.
      * split; [done|]. intros (r' & Hin & Hnone).
        apply elem_of_cons in Hin as [->|Hin]; [congruence|].
        apply IH. eauto.
      * split; [|done]. intros _. destruct (proj1 IH eq_refl) as (r' & ? & ?).
        exists r'. split; [by apply elem_of_cons; right|done].
    + simpl. split; [|done]. intros _. exists r.
      split; [by apply elem_of_cons; left|done].
Qed.

Lemma startProcessing_sent_inv t (op : operator) m :
  EvSendMsgToPeers m ∈ events (startProcessing t op) ->
  exists bal stx reward,
    balances op = Some bal /\ leaderStatus op = None
    /\ selectRequestsToProcess op <> []
    /\ stateTx op = Some stx
    /\ GetRewardAddress (committeeAddress (committee op)) = Some reward
    /\ m = startProcessingMsg op stx reward bal.
Proof.
  intros Hin.
  destruct (balances op) as [bal|] eqn:Hb;
    [|rewrite startProcessing_early in Hin by auto; in_trace Hin].
  destruct (leaderStatus op) as [ls|] eqn:Hl;
    [rewrite startProcessing_early in Hin by (right; congruence);
     in_trace Hin|].
  destruct (selectRequestsToProcess op) as [|r rs] eqn:Hsel;
    [rewrite (startProcessing_empty t op bal) in Hin by done; in_trace Hin|].
  assert (Hne : selectRequestsToProcess op <> []) by (by rewrite Hsel).
  destruct (stateTx op) as [stx|] eqn:Hstx; cycle 1.
  { destruct (startProcessing_unsent t op bal Hb Hl Hne) as (tr & Heq & Hno);
      [by left|]. rewrite Heq in Hin. by destruct (Hno m). }
  destruct (GetRewardAddress (committeeAddress (committee op)))
    as [reward|] eqn:Hrew; cycle 1.
  { destruct (startProcessing_unsent t op bal Hb Hl Hne) as (tr & Heq & Hno);
      [by right|]. rewrite Heq in Hin. by destruct (Hno m). }
  exists bal, stx, reward. rewrite <- Hsel. repeat split; try done.
  rewrite (startProcessing_selected t op bal stx reward) in Hin by done.
  repeat case_match; simpl in Hin; in_trace Hin; congruence.
Qed.

Lemma sentTrace_sent m tr : EvSendMsgToPeers m ∈ sentTrace m ++ tr.
Proof.
  apply elem_of_app. left. unfold sentTrace.
  apply elem_of_cons. right. apply elem_of_cons. by left.
Qed.

Lemma startProcessing_selected_sent t (op : operator) bal stx reward :
  balances op = Some bal -> leaderStatus op = None ->
  selectRequestsToProcess op <> [] ->
  stateTx op = Some stx ->
  GetRewardAddress (committeeAddress (committee op)) = Some reward ->
  EvSendMsgToPeers (startProcessingMsg op stx reward bal)
    ∈ events (startProcessing t op).
Proof.
  intros Hb Hl Hsel Hstx Hrew.
  rewrite (startProcessing_selected t op bal stx reward) by done.
  repeat case_match; simpl; apply sentTrace_sent.
Qed.

Lemma startProcessing_abort t (op : operator) m :
  EvSendMsgToPeers m ∈ events (startProcessing t op) ->
  (fst (SendMsgToPeers t m) < quorum op - 1)%Z ->
  startProcessing t op
  = Returned tt op
      (sentTrace m ++
       [EvLog Error "only %d 'msgStartProcessingRequest' sends succeeded"]).
Proof.
  intros Hin Hlt.
  destruct (startProcessing_sent_inv t op m Hin)
    as (bal & stx & reward & Hb & Hl & Hsel & Hstx & Hrew & ->).
  rewrite (startProcessing_selected t op bal stx reward) by done.
  by rewrite (proj2 (Z.ltb_lt _ _) Hlt).
Qed.

(** C10. The four ways [startProcessing] returns without creating a
    LeaderStatus: balances nil or a round in flight (no event at all), an
    empty selection (one debug line), fewer than quorum()-1 successful
    sends (the broadcast is in the trace).  On each the operator is returned
    with every field as it was and no execution task is started; and a
    return that leaves leaderStatus as it was is one of the four. *)
Theorem startProcessing_frame t (op : operator) :
  (balances op = None \/ leaderStatus op <> None ->
   startProcessing t op = Returned tt op [])
  /\ (forall bal, balances op = Some bal -> leaderStatus op = None ->
        selectRequestsToProcess op = [] ->
        startProcessing t op
        = Returned tt op [EvLog Debug "can't select request to process"])
  /\ (forall m, EvSendMsgToPeers m ∈ events (startProcessing t op) ->
        (fst (SendMsgToPeers t m) < quorum op - 1)%Z ->
        exists tr, startProcessing t op = Returned tt op tr
                   /\ EvSendMsgToPeers m ∈ tr
                   /\ forall par, EvGoProcessRequest par ∉ tr)
  /\ (forall u op' tr,
        startProcessing t op = Returned u op' tr ->
        leaderStatus op' = leaderStatus op ->
        op' = op
        /\ (forall par, EvGoProcessRequest par ∉ tr)
        /\ (balances op = None \/ leaderStatus op <> None
            \/ selectRequestsToProcess op = []
            \/ exists m, EvSendMsgToPeers m ∈ tr
                         /\ (fst (SendMsgToPeers t m) < quorum op - 1)%Z)).
Proof.
  split; [apply startProcessing_early|].
  split; [apply startProcessing_empty|].
  split.
  - intros m Hin Hlt. eexists.
    split; [by apply startProcessing_abort|].
    split; [apply sentTrace_sent|]. intros par Hp. in_trace Hp.
  - intros u op' tr Hrun Hsame.
    destruct (balances op) as [bal|] eqn:Hb; cycle 1.
    { rewrite startProcessing_early in Hrun by auto. simplify_eq.
      split; [done|]. split; [|by left]. intros par Hp. in_trace Hp. }
    destruct (leaderStatus op) as [ls|] eqn:Hl.
    { rewrite startProcessing_early in Hrun by (right; congruence).
      simplify_eq. split; [done|]. split; [|by right; left].
      intros par Hp. in_trace Hp. }
    destruct (selectRequestsToProcess op) as [|r rs] eqn:Hsel.
    { rewrite (startProcessing_empty t op bal) in Hrun by done. simplify_eq.
      split; [done|]. split; [|by right; right; left].
      intros par Hp. in_trace Hp. }
    assert (Hne : selectRequestsToProcess op <> []) by (by rewrite Hsel).
    destruct (stateTx op) as [stx|] eqn:Hstx; cycle 1.
    { destruct (startProcessing_unsent t op bal Hb Hl Hne) as (? & Heq & _);
        [by left|]. by rewrite Heq in Hrun. }
    destruct (GetRewardAddress (committeeAddress (committee op)))
      as [reward|] eqn:Hrew; cycle 1.
    { destruct (startProcessing_unsent t op bal Hb Hl Hne) as (? & Heq & _);
        [by right|]. by rewrite Heq in Hrun. }
    rewrite (startProcessing_selected t op bal stx reward) in Hrun by done.
    destruct (_ <? _)%Z eqn:Hlt.
    + simplify_eq. split; [done|]. split.
      * intros par Hp. in_trace Hp.
      * right; right; right. eexists. split; [apply sentTrace_sent|].
        by apply Z.ltb_lt.
    + destruct (snd (takeMsgs _)); [|done]. by simplify_eq/=.
Qed.

(** ** The tick *)

Lemma doSubordinate_returns (op : operator) :
  doSubordinate op
  = Returned tt
      (set_compRequests (markProcessed <$> currentStateCompRequests op)
         (nextStateCompRequests op) op) [].
Proof. reflexivity. Qed.

Lemma doLeader_eq t (op : operator) :
  doLeader t op = bind (leaderRole t) (fun _ => bind checkQuorum (fun _ => ret tt)) op.
Proof.
  unfold doLeader, leaderRole. rewrite bind_assoc. reflexivity.
Qed.

Lemma takeAction_eq t (op : operator) :
  takeAction t op
  = bind (leaderRole t) (fun _ => bind checkQuorum (fun _ => doSubordinate)) op.
Proof.
  unfold takeAction. unfold bind at 1. rewrite doLeader_eq.
  unfold bind, ret.
  destruct (leaderRole t op) as [[] op1 tr1|p op1 tr1]; [|done].
  destruct (checkQuorum op1) as [b op2 tr2|p op2 tr2]; simpl;
    by rewrite ?app_nil_r.
Qed.

(** C5, as the code orders the tick.  [takeAction] runs the leader role
    first (balance acquisition, or batch selection, broadcast and task
    spawn), then checks quorum, and does the subordinate bookkeeping last,
    on the operator the quorum check left: a panic of the leader role or of
    the quorum check ends the tick before any request is marked. *)
Theorem takeAction_order t (op : operator) :
  match leaderRole t op with
  | Panicked p op1 tr1 => takeAction t op = Panicked p op1 tr1
  | Returned _ op1 tr1 =>
      match checkQuorum op1 with
      | Panicked p op2 tr2 => takeAction t op = Panicked p op2 (tr1 ++ tr2)
      | Returned _ op2 tr2 =>
          takeAction t op
          = Returned tt
              (set_compRequests
                 (markProcessed <$> currentStateCompRequests op2)
                 (nextStateCompRequests op2) op2)
              (tr1 ++ tr2)
      end
  end.
Proof.
  rewrite takeAction_eq. unfold bind.
  destruct (leaderRole t op) as [[] op1 tr1|p op1 tr1]; [|done].
  destruct (checkQuorum op1) as [b op2 tr2|p op2 tr2]; simpl;
    by rewrite ?app_nil_r.
Qed.

Lemma checkQuorum_without_round (op : operator) :
  leaderStatus op = None ->
  checkQuorum op = Returned false op [EvLog Debug "checkQuorum"].
Proof.
  intros Hls. unfold checkQuorum. unfold_monad. simpl. by rewrite Hls.
Qed.

Lemma markProcessed_idempotent (cr : computationRequest) :
  markProcessed (markProcessed cr) = markProcessed cr.
Proof.
  unfold markProcessed. destruct (processed cr) eqn:Hp; simpl.
  - by rewrite Hp.
  - destruct (reqMsg (req cr)) eqn:Hm; simpl; [done|]. by rewrite Hp, Hm.
Qed.

Lemma leaderRole_with_balances t (op : operator) bal :
  iAmCurrentLeader op = true -> balances op = Some bal ->
  leaderRole t op = startProcessing t op.
Proof.
  intros Hlead Hb. unfold leaderRole. unfold bind at 1. unfold get.
  rewrite Hlead, Hb. simpl. by destruct (startProcessing t op).
Qed.

Lemma doSubordinate_twice (op op1 : operator) :
  op1 = set_compRequests (markProcessed <$> currentStateCompRequests op)
          (nextStateCompRequests op) op ->
  set_compRequests (markProcessed <$> currentStateCompRequests op1)
    (nextStateCompRequests op1) op1 = op1.
Proof.
  intros ->. unfold set_compRequests. simpl. f_equal.
  rewrite <- list_fmap_compose. apply list_fmap_ext.
  intros i cr _. apply markProcessed_idempotent.
Qed.

(** C6. When the StartProcessing broadcast of a tick succeeds to fewer than
    quorum()-1 peers, [startProcessing] returns with the operator as it
    was, which holds no LeaderStatus, and without having started the
    execution task.  The leader's tick then returns after the bookkeeping of
    [doSubordinate], and the operator it leaves still holds the balances and
    no LeaderStatus: on the next leader tick [startProcessing] passes its
    guards and selects afresh, from the operator as the bookkeeping left
    it.  If that selection is empty the tick logs so, broadcasts nothing and
    changes nothing; otherwise it broadcasts the new selection, under the
    state index, reward address and balances of the aborted one. *)
Theorem startProcessing_insufficient_sends t (op : operator) m :
  EvSendMsgToPeers m ∈ events (startProcessing t op) ->
  (fst (SendMsgToPeers t m) < quorum op - 1)%Z ->
  (exists tr, startProcessing t op = Returned tt op tr
              /\ forall par, EvGoProcessRequest par ∉ tr)
  /\ leaderStatus op = None
  /\ (iAmCurrentLeader op = true ->
      let op1 := set_compRequests
                   (markProcessed <$> currentStateCompRequests op)
                   (nextStateCompRequests op) op in
      (exists tr, takeAction t op = Returned tt op1 tr
                  /\ EvSendMsgToPeers m ∈ tr
                  /\ forall par, EvGoProcessRequest par ∉ tr)
      /\ leaderStatus op1 = None
      /\ balances op1 = Some (msgBalances m)
      /\ forall t', iAmCurrentLeader op1 = true ->
           (selectRequestsToProcess op1 = [] ->
            takeAction t' op1
            = Returned tt op1
                [EvLog Debug "can't select request to process";
                 EvLog Debug "checkQuorum"])
           /\ (selectRequestsToProcess op1 <> [] ->
               EvSendMsgToPeers
                 (mkStartProcessingReqMsg (msgStateIndex m)
                    (msgRewardAddress m) (msgBalances m)
                    (takeIds (selectRequestsToProcess op1)))
                 ∈ events (takeAction t' op1))).
Proof.
  intros Hin Hlt.
  pose proof (startProcessing_abort t op m Hin Hlt) as Heq.
  destruct (startProcessing_sent_inv t op m Hin)
    as (bal & stx & reward & Hb & Hl & Hsel & Hstx & Hrew & ->).
  split; [|split; [done|]].
  - eexists. split; [exact Heq|]. intros par Hpar. in_trace Hpar.
  - intros Hlead op1.
    split; [|split; [exact Hl|split; [exact Hb|]]].
    + eexists. split; [|split].
      * rewrite takeAction_eq. unfold bind.
        rewrite (leaderRole_with_balances t op bal) by done.
        rewrite Heq, (checkQuorum_without_round op Hl).
        rewrite doSubordinate_returns. reflexivity.
      * apply elem_of_app. left. apply sentTrace_sent.
      * intros par Hpar. in_trace Hpar.
    + intros t' Hlead1. split; intros Hsel1.
      * rewrite takeAction_eq. unfold bind.
        rewrite (leaderRole_with_balances t' op1 bal) by done.
        rewrite (startProcessing_empty t' op1 bal) by done.
        rewrite (checkQuorum_without_round op1 Hl).
        rewrite doSubordinate_returns.
        by rewrite (doSubordinate_twice op op1).
      * rewrite takeAction_eq. apply events_bind_l.
        rewrite (leaderRole_with_balances t' op1 bal) by done.
        by apply (startProcessing_selected_sent t' op1 bal stx reward).
Qed.

Lemma takeAction_leader_panic t (op : operator) bal p op' tr :
  iAmCurrentLeader op = true -> balances op = Some bal ->
  startProcessing t op = Panicked p op' tr ->
  takeAction t op = Panicked p op' tr.
Proof.
  intros Hlead Hb Hp. rewrite takeAction_eq.
  unfold leaderRole. unfold bind, get. simpl.
  by rewrite Hlead, Hb, Hp.
Qed.

(** C2, as the code handles a selected request without message.  With
    balances known, no round in flight, a state transaction and a reward
    address, [startProcessing] broadcasts the StartProcessing message before
    it looks at the request messages; the operator is left as it was (no
    LeaderStatus, no execution task).  With fewer than quorum()-1
    successful sends it then returns; otherwise it panics with "some req
    messages are nil", and on a leader's tick the panic leaves
    [takeAction]. *)
Theorem startProcessing_nil_message t (op : operator) bal stx reward :
  balances op = Some bal -> leaderStatus op = None ->
  stateTx op = Some stx ->
  GetRewardAddress (committeeAddress (committee op)) = Some reward ->
  (exists r, r ∈ selectRequestsToProcess op /\ reqMsg r = None) ->
  let m := startProcessingMsg op stx reward bal in
  EvSendMsgToPeers m ∈ events (startProcessing t op)
  /\ final (startProcessing t op) = op
  /\ (forall par, EvGoProcessRequest par ∉ events (startProcessing t op))
  /\ ((fst (SendMsgToPeers t m) < quorum op - 1)%Z ->
      returns (startProcessing t op) = true)
  /\ ((quorum op - 1 <= fst (SendMsgToPeers t m))%Z ->
      startProcessing t op
      = Panicked (PanicMsg "some req messages are nil") op (sentTrace m)
      /\ (iAmCurrentLeader op = true ->
          takeAction t op
          = Panicked (PanicMsg "some req messages are nil") op (sentTrace m))).
Proof.
  intros Hb Hl Hstx Hrew Hnil m.
  assert (Hsel : selectRequestsToProcess op <> []).
  { destruct Hnil as (r & Hin & _). intros Heq. rewrite Heq in Hin.
    by apply elem_of_nil in Hin. }
  apply takeMsgs_nil_message in Hnil.
  pose proof (startProcessing_selected t op bal stx reward Hb Hl Hsel Hstx Hrew)
    as Heq. simpl in Heq. fold m in Heq. rewrite Hnil in Heq.
  split; [by apply startProcessing_selected_sent|].
  destruct (Z.ltb_spec (fst (SendMsgToPeers t m)) (quorum op - 1)) as [Hlt|Hge];
    rewrite Heq; simpl.
  - split; [done|]. split; [intros par Hp; in_trace Hp|].
    split; [done|]. intros Hle. lia.
  - split; [done|]. split; [intros par Hp; in_trace Hp|].
    split; [intros Hlt; lia|]. intros _. split; [done|].
    intros Hlead. by apply (takeAction_leader_panic t op bal).
Qed.

(** ** requestBalancesFromNode *)

(** On the tick of a leader that holds no balances, the leader role is the
    balance request. *)
Lemma leaderRole_without_balances t (op : operator) :
  iAmCurrentLeader op = true -> balances op = None ->
  leaderRole t op = requestBalancesFromNode t op.
Proof.
  intros Hlead Hb. unfold leaderRole. unfold bind at 1. unfold get.
  rewrite Hlead, Hb. simpl. by destruct (requestBalancesFromNode t op).
Qed.

(** C8. [requestBalancesFromNode] issues a fetch exactly when balances are
    nil and the clock is past getBalancesDeadline, and an issue sets the
    deadline one timeout after the clock; so, of two consecutive calls with
    balances unknown of which the first fetched, the second fetches again
    when its tick is past the deadline the first one set, and otherwise
    does not. *)
Theorem requestBalances_throttling t1 t2 (op : operator) :
  let fetch := EvRequestBalancesFromNode (committeeAddress (committee op)) in
  let op1 := set_getBalancesDeadline (nowAtIssue t1 + getBalancesTimeout)%Z op in
  (balances op = None -> (getBalancesDeadline op < nowAtCheck t1)%Z ->
   requestBalancesFromNode t1 op = Returned tt op1 [fetch])
  /\ (balances op <> None \/ (nowAtCheck t1 <= getBalancesDeadline op)%Z ->
      requestBalancesFromNode t1 op = Returned tt op [])
  /\ (balances op = None -> (getBalancesDeadline op < nowAtCheck t1)%Z ->
      balances op1 = None
      /\ ((nowAtCheck t2 <= nowAtIssue t1 + getBalancesTimeout)%Z ->
          events (requestBalancesFromNode t1 op)
            ++ events (requestBalancesFromNode t2 op1) = [fetch])
      /\ ((nowAtIssue t1 + getBalancesTimeout < nowAtCheck t2)%Z ->
          events (requestBalancesFromNode t1 op)
            ++ events (requestBalancesFromNode t2 op1) = [fetch; fetch]
          /\ getBalancesDeadline (final (requestBalancesFromNode t2 op1))
             = (nowAtIssue t2 + getBalancesTimeout)%Z)).
Proof.
  intros fetch op1.
  assert (Hissue : forall t (o : operator),
    balances o = None -> (getBalancesDeadline o < nowAtCheck t)%Z ->
    requestBalancesFromNode t o
    = Returned tt
        (set_getBalancesDeadline (nowAtIssue t + getBalancesTimeout)%Z o)
        [EvRequestBalancesFromNode (committeeAddress (committee o))]).
  { intros t o Hb Hlt. unfold requestBalancesFromNode. unfold_monad. simpl.
    rewrite bool_decide_true by done.
    by rewrite (proj2 (Z.ltb_lt _ _) Hlt). }
  assert (Hskip : forall t (o : operator),
    balances o <> None \/ (nowAtCheck t <= getBalancesDeadline o)%Z ->
    requestBalancesFromNode t o = Returned tt o []).
  { intros t o [Hb|Hle]; unfold requestBalancesFromNode; unfold_monad; simpl.
    - by rewrite bool_decide_false.
    - rewrite (proj2 (Z.ltb_ge _ _) Hle). by rewrite andb_false_r. }
  split; [apply Hissue|]. split; [apply Hskip|].
  intros Hb Hlt. split; [done|]. rewrite (Hissue t1 op Hb Hlt). split.
  - intros Hle. rewrite Hskip; [done|]. by right.
  - intros Hgt. rewrite Hissue; [done|done|]. done.
Qed.

(** ** setNewState *)

Lemma setAllFalse_replicate (v : list bool) :
  setAllFalse v = replicate (length v) false.
Proof.
  unfold setAllFalse. induction v as [|b v IH]; simpl; by rewrite ?IH.
Qed.

Lemma rangeRequests_completes body (visited rest : list request)
    (op : operator) :
  (forall r, r ∈ rest -> snd (body r) = None) ->
  rangeRequests body visited rest op
  = Returned tt (set_requests (visited ++ (fst ∘ body <$> rest)) op) [].
Proof.
  revert visited. induction rest as [|r rest IH]; intros visited Hok; simpl.
  - unfold_monad. simpl. by rewrite app_nil_r.
  - pose proof (Hok r ltac:(by apply elem_of_cons; left)) as Hr.
    destruct (body r) as [r' [p|]] eqn:Hbody; simpl in Hr; [done|].
    rewrite IH by (intros r0 Hin; apply Hok; by apply elem_of_cons; right).
    by rewrite <- app_assoc.
Qed.

Lemma rotateRequest_completes (next : bool) (own : nat) (r : request) :
  (reqMsg r <> None ->
   own < length (notificationsCurrentState r)
   /\ own < length (notificationsNextState r)) ->
  rotateRequest next own r
  = (if next then
       mkRequest (reqId r) (reqMsg r)
         (markOwn own (reqMsg r) (notificationsNextState r))
         (markOwn own (reqMsg r)
            (replicate (length (notificationsCurrentState r)) false))
     else
       mkRequest (reqId r) (reqMsg r)
         (replicate (length (notificationsCurrentState r)) false)
         (replicate (length (notificationsNextState r)) false),
     None).
Proof.
  intros Hlen. unfold rotateRequest. rewrite !setAllFalse_replicate.
  destruct next; [|done]. destruct (reqMsg r) as [m|]; simpl; [|done].
  destruct Hlen as [Hc Hn]; [done|].
  rewrite length_replicate.
  by rewrite !bool_decide_true by done.
Qed.

(** C7, as the code treats the two kinds of transition.  Provided the
    vectors of the requests whose message has arrived reach this node's
    index, [setNewState] returns, keeps the requests with their ids and
    messages, and for each of them: on a direct successor state the former
    next-state vector is the current-state vector and the next-state vector
    is all false, after which the own slot is true in both if the message
    has arrived; on any other transition both vectors are all false, the
    own slot included. *)
Theorem setNewState_notifications now tx vs (op : operator) :
  (forall r, r ∈ requests op -> reqMsg r <> None ->
     peerIndex op < length (notificationsCurrentState r)
     /\ peerIndex op < length (notificationsNextState r)) ->
  exists op',
    setNewState now tx vs op = Returned tt op' []
    /\ length (requests op') = length (requests op)
    /\ forall k r, requests op !! k = Some r ->
       exists r', requests op' !! k = Some r'
         /\ reqId r' = reqId r /\ reqMsg r' = reqMsg r
         /\ (isNextState op vs = true ->
             notificationsCurrentState r'
             = markOwn (peerIndex op) (reqMsg r) (notificationsNextState r)
             /\ notificationsNextState r'
                = markOwn (peerIndex op) (reqMsg r)
                    (replicate (length (notificationsCurrentState r)) false))
         /\ (isNextState op vs = false ->
             notificationsCurrentState r'
             = replicate (length (notificationsCurrentState r)) false
             /\ notificationsNextState r'
                = replicate (length (notificationsNextState r)) false
             /\ notificationsCurrentState r' !! peerIndex op <> Some true
             /\ notificationsNextState r' !! peerIndex op <> Some true).
Proof.
  intros Hlen. unfold setNewState, resetLeader. unfold_monad. simpl.
  fold (isNextState op vs). unfold peerIndex at 1. simpl.
  fold (peerIndex op).
  rewrite rangeRequests_completes; cycle 1.
  { intros r Hin. rewrite rotateRequest_completes; [done|]. by apply Hlen. }
  eexists. split; [reflexivity|]. simpl. split; [by rewrite length_fmap|].
  intros k r Hk. rewrite list_lookup_fmap, Hk. simpl.
  eexists. split; [reflexivity|].
  rewrite rotateRequest_completes
    by (apply Hlen; by apply list_elem_of_lookup_2 in Hk).
  simpl. destruct (isNextState op vs); simpl.
  - repeat split; done.
  - repeat split; try done.
    + intros Hx. apply lookup_replicate in Hx as [? _]. done.
    + intros Hx. apply lookup_replicate in Hx as [? _]. done.
Qed.

End Properties.

(** * The committee of four *)

Section Committee4.
Import Demo.
#[local] Existing Instance collaborators.
#[local] Open Scope Z_scope.

(** C1 on the code: three of four peers report [H] and the aggregated
    signature verifies.  [checkQuorum] returns true and posts the
    transaction, but the round's [finalized] flag is still false; the next
    call passes the guard, aggregates and posts again. *)
Theorem checkQuorum_posts_again :
  exists op1 tr1 op2 tr2,
    checkQuorum opQuorum = Returned true op1 tr1
    /\ finalized <$> leaderStatus op1 = Some false
    /\ checkQuorum op1 = Returned true op2 tr2
    /\ finalized <$> leaderStatus op2 = Some false
    /\ length (posted (tr1 ++ tr2)) = 2%nat.
Proof.
  do 4 eexists. split; [vm_compute; reflexivity|].
  split; [reflexivity|]. split; [vm_compute; reflexivity|].
  split; reflexivity.
Qed.

(** C3 on the code: a round in which only the leader's own result has been
    recorded.  One share matches, quorum is three, and [checkQuorum] does
    not return false: it panics at the first empty slot. *)
Theorem checkQuorum_panics_below_quorum :
  (exists ls, leaderStatus opOwnOnly = Some ls
     /\ resultTx ls <> None /\ finalized ls = false
     /\ length (filter (fun slot => essenceHash <$> slot = Some H)
                  (signedResults ls)) = 1%nat)
  /\ quorum opOwnOnly = 3
  /\ checkQuorum opOwnOnly
     = Panicked NilDereference opOwnOnly [EvLog Debug "checkQuorum"].
Proof.
  split; [|split; reflexivity].
  eexists. split; [reflexivity|]. split; [done|]. split; reflexivity.
Qed.

Lemma checkQuorum_guard_witness :
  checkQuorum opFinalized
  = Returned false opFinalized [EvLog Debug "checkQuorum"].
Proof.
  apply (checkQuorum_guard opFinalized).
  right. eexists. split; [reflexivity|]. right. reflexivity.
Defined.

Lemma checkQuorum_needs_every_slot_witness :
  (checkQuorum opThreeOfFour
   = Panicked NilDereference opThreeOfFour [EvLog Debug "checkQuorum"]
   <-> exists i, [Some (mkSignedResult H (share Byte.x0a));
                  Some (mkSignedResult H (share Byte.x0b));
                  None;
                  Some (mkSignedResult H (share Byte.x0d))] !! i = Some None).
Proof.
  refine (proj1 (checkQuorum_needs_every_slot opThreeOfFour _ resultTx11
                   eq_refl eq_refl eq_refl _)).
  simpl. lia.
Defined.

Lemma startProcessing_insufficient_sends_witness :
  leaderStatus opIdle = None
  /\ (exists tr, startProcessing (tick 1 1) opIdle = Returned tt opIdle tr)
  /\ EvSendMsgToPeers (mkStartProcessingReqMsg 10 77 bal [1; 2])
       ∈ events (takeAction (tick 2 1) (final (takeAction (tick 1 1) opIdle)))
  /\ events (@takeAction unprocessedFirst (tick 2 1)
               (final (@takeAction unprocessedFirst (tick 1 1) opIdle)))
     = [EvLog Debug "can't select request to process";
        EvLog Debug "checkQuorum"].
Proof.
  destruct (startProcessing_insufficient_sends (tick 1 1) opIdle
              (mkStartProcessingReqMsg 10 77 bal [1; 2]))
    as ((tr & Heq & _) & Hnone & Hnext).
  - vm_compute. apply elem_of_cons. right. apply elem_of_cons. by left.
  - vm_compute. reflexivity.
  - split; [exact Hnone|]. split; [exists tr; exact Heq|]. split.
    + destruct (Hnext eq_refl) as ((tr1 & -> & _) & _ & _ & Hagain).
      destruct (Hagain (tick 2 1) eq_refl) as (_ & Hsend).
      apply Hsend. vm_compute. discriminate.
    + destruct (@startProcessing_insufficient_sends unprocessedFirst
                  (tick 1 1) opIdle (mkStartProcessingReqMsg 10 77 bal [1]))
        as (_ & _ & Hnext').
      * vm_compute. apply elem_of_cons. right. apply elem_of_cons. by left.
      * vm_compute. reflexivity.
      * destruct (Hnext' eq_refl) as ((tr1 & -> & _) & _ & _ & Hagain).
        destruct (Hagain (tick 2 1) eq_refl) as (Hempty & _).
        cbn [final]. rewrite Hempty; reflexivity.
Defined.

Lemma startProcessing_frame_witness :
  startProcessing (tick 1 3) opNoBalances = Returned tt opNoBalances []
  /\ exists tr,
       startProcessing (tick 1 1) opIdle = Returned tt opIdle tr
       /\ EvSendMsgToPeers (mkStartProcessingReqMsg 10 77 bal [1; 2]) ∈ tr
       /\ forall par, EvGoProcessRequest par ∉ tr.
Proof.
  split.
  - apply (proj1 (startProcessing_frame (tick 1 3) opNoBalances)).
    left. reflexivity.
  - apply (proj1 (proj2 (proj2 (startProcessing_frame (tick 1 1) opIdle)))).
    + vm_compute. apply elem_of_cons. right. apply elem_of_cons. by left.
    + vm_compute. reflexivity.
Defined.

Lemma requestBalances_throttling_witness :
  events (requestBalancesFromNode (tick 10 0) opNoBalances)
    ++ events (requestBalancesFromNode (tick 500 0)
                 (set_getBalancesDeadline (10 + getBalancesTimeout)
                    opNoBalances))
  = [EvRequestBalancesFromNode 77].
Proof.
  destruct (requestBalances_throttling (tick 10 0) (tick 500 0) opNoBalances)
    as (_ & _ & Htwo).
  destruct Htwo as (_ & Hone & _).
  - reflexivity.
  - simpl. lia.
  - apply Hone. vm_compute. discriminate.
Defined.

(** Counterexample to C2 as stated: the leader selects [R1, R2, R3], and
    the message of [R3] has not arrived.  The StartProcessing message is broadcast all the
    same, and the tick ends in a panic that leaves [takeAction]. *)
Lemma startProcessing_nil_message_broadcasts_and_panics :
  (exists r, r ∈ selectRequestsToProcess opIncomplete /\ reqMsg r = None)
  /\ iAmCurrentLeader opIncomplete = true
  /\ EvSendMsgToPeers (mkStartProcessingReqMsg 10 77 bal [1; 2; 3])
       ∈ events (startProcessing (tick 1 3) opIncomplete)
  /\ takeAction (tick 1 3) opIncomplete
     = Panicked (PanicMsg "some req messages are nil") opIncomplete
         (sentTrace (mkStartProcessingReqMsg 10 77 bal [1; 2; 3])).
Proof.
  split.
  { exists R3. split; [|reflexivity]. simpl.
    apply elem_of_cons. right. apply elem_of_cons. right.
    apply elem_of_cons. by left. }
  split; [reflexivity|]. split; [|vm_compute; reflexivity].
  vm_compute. apply elem_of_cons. right. apply elem_of_cons. by left.
Qed.

Lemma startProcessing_nil_message_witness :
  startProcessing (tick 1 3) opIncomplete
  = Panicked (PanicMsg "some req messages are nil") opIncomplete
      (sentTrace (mkStartProcessingReqMsg 10 77 bal [1; 2; 3])).
Proof.
  destruct (startProcessing_nil_message (tick 1 3) opIncomplete bal stateTx10 77)
    as (_ & _ & _ & _ & Hpanic).
  - reflexivity.
  - reflexivity.
  - reflexivity.
  - reflexivity.
  - exists R3. split; [|reflexivity]. simpl.
    apply elem_of_cons. right. apply elem_of_cons. right.
    apply elem_of_cons. by left.
  - refine (proj1 (Hpanic _)). vm_compute. discriminate.
Defined.

(** Counterexample to C7 as stated: the operator is at state 10 and state
    15 is confirmed.
    The message of [R1] has arrived and this node has index 0, yet slot 0 of
    both vectors of [R1] is false after [setNewState]. *)
Lemma setNewState_jump_clears_own_slot :
  reqMsg R1 <> None
  /\ peerIndex opIdle = 0%nat
  /\ exists op',
       setNewState 9 resultTx11 (mkVariableState 15) opIdle
       = Returned tt op' []
       /\ requests op'
          = [mkRequest 1 (Some [Byte.x01]) [false; false; false; false]
               [false; false; false; false];
             mkRequest 2 (Some [Byte.x02]) [false; false; false; false]
               [false; false; false; false]].
Proof.
  split; [done|]. split; [reflexivity|].
  eexists. split; vm_compute; reflexivity.
Qed.

Lemma setNewState_notifications_witness :
  exists op',
    setNewState 9 resultTx11 (mkVariableState 11) opIncomplete
    = Returned tt op' []
    /\ exists r', requests op' !! 0%nat = Some r'
         /\ notificationsCurrentState r' = [true; false; true; false]
         /\ notificationsNextState r' = [true; false; false; false].
Proof.
  destruct (setNewState_notifications 9 resultTx11 (mkVariableState 11)
              opIncomplete) as (op' & Hrun & _ & Hreq).
  - intros r Hin _. simpl in Hin.
    apply elem_of_cons in Hin as [->|Hin]; [split; vm_compute; lia|].
    apply elem_of_cons in Hin as [->|Hin]; [split; vm_compute; lia|].
    apply elem_of_cons in Hin as [->|Hin]; [split; vm_compute; lia|].
    by apply elem_of_nil in Hin.
  - exists op'. split; [exact Hrun|].
    destruct (Hreq 0%nat R1 eq_refl) as (r' & Hr' & _ & _ & Hnext & _).
    exists r'. split; [exact Hr'|]. exact (Hnext eq_refl).
Defined.

End Committee4.

(** * A policy that selects what is not yet marked *)

Section UnprocessedFirst.
Import Demo.
#[local] Existing Instance unprocessedFirst.
#[local] Open Scope Z_scope.

(** Counterexample to C5 as stated: the leader selects among the requests
    that the subordinate bookkeeping has not marked.  [takeAction] selects [R1],
    broadcasts and opens a round, and marks [R1] afterwards; in the order of
    the specification [R1] is marked first, nothing is left to select and
    nothing is broadcast. *)
Lemma takeAction_not_as_specified :
  takeAction (tick 1 3) opIdle <> takeAction_as_specified (tick 1 3) opIdle
  /\ EvSendMsgToPeers (mkStartProcessingReqMsg 10 77 bal [1])
       ∈ events (takeAction (tick 1 3) opIdle)
  /\ leaderStatus (final (takeAction (tick 1 3) opIdle)) <> None
  /\ events (takeAction_as_specified (tick 1 3) opIdle)
     = [EvLog Debug "can't select request to process";
        EvLog Debug "checkQuorum"]
  /\ leaderStatus (final (takeAction_as_specified (tick 1 3) opIdle)) = None.
Proof.
  split; [vm_compute; discriminate|].
  split; [vm_compute; apply elem_of_cons; right; apply elem_of_cons; by left|].
  split; [vm_compute; discriminate|].
  split; vm_compute; reflexivity.
Qed.

End UnprocessedFirst.

(** * Further properties of action.go *)

Section MoreProperties.
Context `{Collaborators}.

(** ** checkQuorum on every path *)

Lemma checkQuorum_cases (op : operator) :
  checkQuorum op = Returned false op [EvLog Debug "checkQuorum"]
  \/ (exists p, checkQuorum op = Panicked p op [EvLog Debug "checkQuorum"])
  \/ (exists ls tx rs own,
        leaderStatus op = Some ls /\ resultTx ls = Some tx
        /\ finalized ls = false /\ signedResults ls = Some <$> rs
        /\ rs !! OwnPeerIndex (committee op) = Some own
        /\ checkQuorum op
           = afterCollect op ls tx (matchingShares (essenceHash own) rs)).
Proof.
  destruct (leaderStatus op) as [ls|] eqn:Hls;
    [|left; unfold checkQuorum; unfold_monad; simpl; by rewrite Hls].
  destruct (resultTx ls) as [tx|] eqn:Htx;
    [|left; unfold checkQuorum; unfold_monad; simpl; by rewrite Hls, Htx].
  destruct (finalized ls) eqn:Hfin;
    [left; unfold checkQuorum; unfold_monad; simpl;
     by rewrite Hls, Htx, Hfin|].
  destruct (decide (OwnPeerIndex (committee op) < length (signedResults ls)))
    as [Hlt|Hge].
  - destruct (populated_or_nil_slot (signedResults ls)) as [[rs Hrs]|Hin].
    + assert (is_Some (rs !! OwnPeerIndex (committee op))) as [own Hown].
      { apply lookup_lt_is_Some_2. by rewrite Hrs, length_fmap in Hlt. }
      right; right. exists ls, tx, rs, own. repeat split; try done.
      by apply checkQuorum_populated.
    + right; left. exists NilDereference.
      by apply (checkQuorum_nil_slot op ls tx).
  - right; left. exists IndexOutOfRange.
    unfold checkQuorum. unfold_monad. simpl. rewrite Hls, Htx, Hfin.
    by rewrite (lookup_ge_None_2 (signedResults ls)) by lia.
Qed.

Lemma sameButSignature_refl (op : operator) : sameButSignature op op.
Proof.
  unfold sameButSignature. repeat split.
  destruct (leaderStatus op) as [ls|]; [|done]. repeat split.
  by destruct (resultTx ls).
Qed.

Lemma checkQuorum_sameButSignature (op : operator) :
  sameButSignature op (final (checkQuorum op)).
Proof.
  destruct (checkQuorum_cases op)
    as [->|[[p ->]|(ls & tx & rs & own & Hls & Htx & _ & _ & _ & ->)]];
    try apply sameButSignature_refl.
  unfold afterCollect. repeat case_match; try apply sameButSignature_refl;
    simpl; unfold sameButSignature; simpl; rewrite Hls; simpl; rewrite Htx;
    repeat split.
Qed.

(** X1. Whatever path it takes, returning or panicking, [checkQuorum]
    leaves the operator as it was except, at most, for the signature of the
    round's resultTx: it keeps the committee, the balances and their
    deadline, the requests, the round's batch, timestamp, [finalized] flag
    and every recorded signature share; and unless it recovered a signature
    it leaves the operator exactly as it was. *)
Theorem checkQuorum_frame (op : operator) :
  sameButSignature op (final (checkQuorum op))
  /\ (final (checkQuorum op) = op
      \/ exists ls tx sig,
           leaderStatus op = Some ls /\ resultTx ls = Some tx
           /\ final (checkQuorum op)
              = set_leaderStatus
                  (Some (set_resultTx (Some (set_txSignature (Some sig) tx)) ls))
                  op).
Proof.
  split; [apply checkQuorum_sameButSignature|].
  destruct (checkQuorum_cases op)
    as [->|[[p ->]|(ls & tx & rs & own & Hls & Htx & _ & _ & _ & ->)]];
    [by left|by left|].
  unfold afterCollect. repeat case_match; simpl; try (by left);
    right; by do 3 eexists.
Qed.

(** X3. A call of [checkQuorum] hands at most one transaction to the node
    for posting, and it does so exactly when it returns true: a call that
    returns false or panics posts nothing. *)
Theorem checkQuorum_posts_iff_true (op : operator) :
  length (posted (events (checkQuorum op)))
  = if bool_decide (result (checkQuorum op) = Some true) then 1 else 0.
Proof.
  destruct (checkQuorum_cases op)
    as [->|[[p ->]|(ls & tx & rs & own & _ & _ & _ & _ & _ & ->)]];
    try done.
  unfold afterCollect. by repeat case_match.
Qed.

(** X2. [checkQuorum] returns true only in a round in which every peer's
    result is recorded and at least quorum() of them carry this node's own
    essenceHash; the signature it attached to resultTx is the one recovered
    from exactly those peers' shares, it verifies, and the transaction
    posted is the round's resultTx with that signature. *)
Theorem checkQuorum_true_quorum (op op' : operator) tr :
  checkQuorum op = Returned true op' tr ->
  exists ls tx rs own sig,
    leaderStatus op = Some ls /\ resultTx ls = Some tx
    /\ signedResults ls = Some <$> rs
    /\ rs !! OwnPeerIndex (committee op) = Some own
    /\ (quorum op
        <= Z.of_nat (length (filter (fun sr => essenceHash sr = essenceHash own)
                               rs)))%Z
    /\ RecoverFullSignature (matchingShares (essenceHash own) rs) tx = Some sig
    /\ SignaturesValid (set_txSignature (Some sig) tx) = true
    /\ posted tr = [set_txSignature (Some sig) tx]
    /\ leaderStatus op'
       = Some (set_resultTx (Some (set_txSignature (Some sig) tx)) ls).
Proof.
  intros Hrun.
  apply checkQuorum_true_inv in Hrun
    as (ls & tx & rs & own & Hls & Htx & Hfin & Hrs & Hown & Hafter).
  unfold afterCollect in Hafter.
  destruct (Z.ltb_spec (Z.of_nat (length (matchingShares (essenceHash own) rs)))
              (quorum op)) as [Hlt|Hge]; [done|].
  destruct (RecoverFullSignature _ tx) as [sig|] eqn:Hrec; [|done].
  simpl in Hafter.
  destruct (SignaturesValid _) eqn:Hvalid; [|done].
  simplify_eq. exists ls, tx, rs, own, sig.
  repeat split; try done.
  unfold matchingShares in Hge. by rewrite length_fmap in Hge.
Qed.

(** ** The parts of a tick *)

Lemma requested_app tr1 tr2 :
  requested (tr1 ++ tr2) = requested tr1 ++ requested tr2.
Proof. apply omap_app. Qed.

Lemma broadcast_app tr1 tr2 :
  broadcast (tr1 ++ tr2) = broadcast tr1 ++ broadcast tr2.
Proof. apply omap_app. Qed.

Lemma checkQuorum_silent (op : operator) :
  requested (events (checkQuorum op)) = []
  /\ broadcast (events (checkQuorum op)) = [].
Proof.
  destruct (checkQuorum_cases op)
    as [->|[[p ->]|(ls & tx & rs & own & _ & _ & _ & _ & _ & ->)]];
    try done.
  unfold afterCollect. by repeat case_match.
Qed.

Lemma checkQuorum_guard_round (op : operator) ls :
  leaderStatus op = Some ls -> resultTx ls = None ->
  checkQuorum op = Returned false op [EvLog Debug "checkQuorum"].
Proof.
  intros Hls Htx. unfold checkQuorum. unfold_monad. simpl.
  by rewrite Hls, Htx.
Qed.

Lemma requestBalancesFromNode_cases t (op : operator) :
  requestBalancesFromNode t op = Returned tt op []
  \/ (balances op = None
      /\ (getBalancesDeadline op < nowAtCheck t)%Z
      /\ requestBalancesFromNode t op
         = Returned tt
             (set_getBalancesDeadline (nowAtIssue t + getBalancesTimeout)%Z op)
             [EvRequestBalancesFromNode (committeeAddress (committee op))]).
Proof.
  unfold requestBalancesFromNode. unfold_monad. simpl.
  destruct (balances op) as [bal|] eqn:Hb; simpl; [by left|].
  destruct (Z.ltb_spec (getBalancesDeadline op) (nowAtCheck t));
    [right|left]; done.
Qed.

(** The five ways out of [startProcessing]. *)
Lemma startProcessing_cases t (op : operator) :
  startProcessing t op = Returned tt op []
  \/ startProcessing t op
     = Returned tt op [EvLog Debug "can't select request to process"]
  \/ (exists tr, startProcessing t op = Panicked NilDereference op tr
                 /\ requested tr = [] /\ broadcast tr = [])
  \/ (exists m tr,
        startProcessing t op = Returned tt op tr
        /\ requested tr = [] /\ broadcast tr = [m])
  \/ (exists m tr,
        startProcessing t op
        = Panicked (PanicMsg "some req messages are nil") op tr
        /\ requested tr = [] /\ broadcast tr = [m])
  \/ (exists m tr,
        balances op <> None /\ leaderStatus op = None
        /\ startProcessing t op
           = Returned tt
               (set_leaderStatus
                  (Some (newRound op (snd (SendMsgToPeers t m)))) op) tr
        /\ requested tr = [] /\ broadcast tr = [m]).
Proof.
  destruct (balances op) as [bal|] eqn:Hb;
    [|left; apply startProcessing_early; auto].
  destruct (leaderStatus op) as [ls|] eqn:Hl;
    [left; apply startProcessing_early; right; congruence|].
  destruct (selectRequestsToProcess op) as [|r rs] eqn:Hsel;
    [right; left; by apply (startProcessing_empty t op bal)|].
  assert (Hne : selectRequestsToProcess op <> []) by (by rewrite Hsel).
  destruct (stateTx op) as [stx|] eqn:Hstx; cycle 1.
  { right; right; left. unfold startProcessing; unfold_monad; simpl.
    rewrite Hb, Hl, Hsel, Hstx. simpl. by eexists. }
  destruct (GetRewardAddress (committeeAddress (committee op)))
    as [reward|] eqn:Hrew; cycle 1.
  { right; right; left. unfold startProcessing; unfold_monad; simpl.
    rewrite Hb, Hl, Hsel, Hstx. simpl. rewrite Hrew. simpl. by eexists. }
  pose proof (startProcessing_selected t op bal stx reward Hb Hl Hne Hstx Hrew)
    as Heq. simpl in Heq. rewrite Heq.
  destruct (_ <? _)%Z.
  - right; right; right; left. by do 2 eexists.
  - destruct (snd (takeMsgs _)).
    + do 5 right. do 2 eexists. by repeat split.
    + do 4 right; left. by do 2 eexists.
Qed.

(** ** Composing the parts *)

Lemma respects_bind {A B} T (m : M A) (k : A -> M B) :
  (forall op1 op2 op3 t1 t2 b,
     T op1 op2 t1 true -> T op2 op3 t2 b -> T op1 op3 (t1 ++ t2) b) ->
  respects T m -> (forall a, respects T (k a)) -> respects T (bind m k).
Proof.
  intros Hcomp Hm Hk op. unfold bind. specialize (Hm op).
  destruct (m op) as [a op1 t1|p op1 t1]; simpl in *; [|done].
  specialize (Hk a op1).
  destruct (k a op1) as [b op2 t2|p op2 t2]; simpl in *; by eapply Hcomp.
Qed.

Lemma respects_ret {A} T (a : A) :
  (forall op, T op op [] true) -> respects T (ret a).
Proof. intros Hrefl op. apply Hrefl. Qed.

Lemma respects_get T :
  (forall op, T op op [] true) -> respects T get.
Proof. intros Hrefl op. apply Hrefl. Qed.

(** A relation that holds of nothing happening, composes, and is respected
    by the four parts of a tick is respected by the tick. *)
Lemma takeAction_respects T t :
  (forall op, T op op [] true) ->
  (forall op1 op2 op3 t1 t2 b,
     T op1 op2 t1 true -> T op2 op3 t2 b -> T op1 op3 (t1 ++ t2) b) ->
  respects T (requestBalancesFromNode t) ->
  respects T (startProcessing t) ->
  respects T checkQuorum ->
  respects T doSubordinate ->
  respects T (takeAction t).
Proof.
  intros Hrefl Hcomp Hrb Hsp Hcq Hds.
  unfold takeAction. apply respects_bind; [done| |done].
  unfold doLeader. apply respects_bind; [done|by apply respects_get|].
  intros op0. apply respects_bind; [done| |].
  - destruct (iAmCurrentLeader op0); [|by apply respects_ret].
    by destruct (balances op0).
  - intros _. apply respects_bind; [done|done|].
    intros _. by apply respects_ret.
Qed.

Lemma takeActions_respects T ticks :
  (forall op, T op op [] true) ->
  (forall op1 op2 op3 t1 t2 b,
     T op1 op2 t1 true -> T op2 op3 t2 b -> T op1 op3 (t1 ++ t2) b) ->
  (forall t, t ∈ ticks -> respects T (takeAction t)) ->
  respects T (takeActions ticks).
Proof.
  intros Hrefl Hcomp. induction ticks as [|t ticks IH]; intros Hticks; simpl.
  - by apply respects_ret.
  - apply respects_bind; [done| |].
    + apply Hticks. by apply elem_of_cons; left.
    + intros _. apply IH. intros t' Hin. apply Hticks.
      by apply elem_of_cons; right.
Qed.

(** ** What a run of ticks never does *)

Lemma keptByTicks_refl (op : operator) : keptByTicks op op.
Proof. unfold keptByTicks. repeat split. intros ls Hls. by exists ls. Qed.

Lemma keptByTicks_trans (op1 op2 op3 : operator) :
  keptByTicks op1 op2 -> keptByTicks op2 op3 -> keptByTicks op1 op3.
Proof.
  intros (? & ? & ? & ? & ? & ? & Hr1) (? & ? & ? & ? & ? & ? & Hr2).
  unfold keptByTicks. repeat split; try congruence.
  intros ls Hls. destruct (Hr1 ls Hls) as (ls2 & Hls2 & ? & ? & ? & ? & ?).
  destruct (Hr2 ls2 Hls2) as (ls3 & Hls3 & ? & ? & ? & ? & ?).
  exists ls3. repeat split; congruence.
Qed.

Lemma sameButSignature_kept (op op' : operator) :
  sameButSignature op op' -> keptByTicks op op'.
Proof.
  intros (? & ? & ? & ? & ? & ? & ? & ? & Hround).
  unfold keptByTicks. repeat split; try done.
  intros ls Hls. rewrite Hls in Hround.
  destruct (leaderStatus op') as [ls'|]; [|done].
  exists ls'. by destruct Hround as (? & ? & ? & ? & ? & _).
Qed.

(** X10. No run of ticks, whether it returns or ends in a panic, changes
    the committee, the state transaction, the state, the balances, the
    requests with their notification vectors or the requests noted for the
    next state; and a round in flight at the start is still in flight at the
    end, with the same batch, batch hash, timestamp, [finalized] flag and
    recorded signature shares. *)
Theorem takeActions_frame ticks (op : operator) :
  keptByTicks op (final (takeActions ticks op)).
Proof.
  apply (takeActions_respects (fun op op' _ _ => keptByTicks op op')).
  - apply keptByTicks_refl.
  - intros. by eapply keptByTicks_trans.
  - intros t _. apply takeAction_respects.
    + apply keptByTicks_refl.
    + intros. by eapply keptByTicks_trans.
    + intros o. destruct (requestBalancesFromNode_cases t o)
        as [->|(_ & _ & ->)]; simpl; [apply keptByTicks_refl|].
      unfold keptByTicks. repeat split. intros ls Hls. by exists ls.
    + intros o. destruct (startProcessing_cases t o)
        as [->|[->|[(tr & -> & _)|[(m & tr & -> & _)|[(m & tr & -> & _)
           |(m & tr & _ & Hl & -> & _)]]]]]; simpl;
        try apply keptByTicks_refl.
      unfold keptByTicks. repeat split. intros ls Hls. congruence.
    + intros o. apply sameButSignature_kept, checkQuorum_sameButSignature.
    + intros o. rewrite doSubordinate_returns. simpl.
      unfold keptByTicks. repeat split. intros ls Hls. by exists ls.
Qed.

(** X5. While a round is in flight the leader does not broadcast again: a
    run of ticks that starts with a LeaderStatus sends no StartProcessing
    message, however the run ends, and still has a LeaderStatus at its
    end. *)
Theorem takeActions_round_in_flight ticks (op : operator) :
  leaderStatus op <> None ->
  broadcast (events (takeActions ticks op)) = []
  /\ leaderStatus (final (takeActions ticks op)) <> None.
Proof.
  apply (takeActions_respects
           (fun op op' tr _ => leaderStatus op <> None ->
              broadcast tr = [] /\ leaderStatus op' <> None)).
  - done.
  - intros op1 op2 op3 t1 t2 b H1 H2 Hl.
    destruct (H1 Hl) as [Hb1 Hl2]. destruct (H2 Hl2) as [Hb2 Hl3].
    by rewrite broadcast_app, Hb1, Hb2.
  - intros t _. apply takeAction_respects.
    + done.
    + intros op1 op2 op3 t1 t2 b H1 H2 Hl.
      destruct (H1 Hl) as [Hb1 Hl2]. destruct (H2 Hl2) as [Hb2 Hl3].
      by rewrite broadcast_app, Hb1, Hb2.
    + intros o Hl. by destruct (requestBalancesFromNode_cases t o)
        as [->|(_ & _ & ->)].
    + intros o Hl. by rewrite startProcessing_early by auto.
    + intros o Hl. split; [apply checkQuorum_silent|].
      destruct (checkQuorum_sameButSignature o)
        as (_ & _ & _ & _ & _ & _ & _ & _ & Hround).
      destruct (leaderStatus o); [|done].
      by destruct (leaderStatus (final (checkQuorum o))).
    + intros o Hl. by rewrite doSubordinate_returns.
Qed.

(** X9. Balance requests are throttled over any run of ticks: if on every
    tick of the run the clock at the deadline test is not after the clock
    at which the new deadline is set, and neither is after [B], then the
    number of balance requests of the run, times the timeout, is at most
    the time from getBalancesDeadline to [B] plus one timeout (and there is
    none if the deadline is that far away). *)
Theorem takeActions_throttled ticks (B : Time) (op : operator) :
  (forall t, t ∈ ticks -> (nowAtCheck t <= nowAtIssue t <= B)%Z) ->
  (Z.of_nat (length (requested (events (takeActions ticks op))))
     * getBalancesTimeout
   <= Z.max 0 (B + getBalancesTimeout - getBalancesDeadline op))%Z.
Proof.
  intros Hticks.
  set (T := fun (op op' : operator) (tr : list event) (_ : bool) =>
    (Z.of_nat (length (requested tr)) * getBalancesTimeout
       + Z.max 0 (B + getBalancesTimeout - getBalancesDeadline op')
     <= Z.max 0 (B + getBalancesTimeout - getBalancesDeadline op))%Z).
  assert (Hrefl : forall o, T o o [] true) by (intros o; unfold T; simpl; lia).
  assert (Hcomp : forall op1 op2 op3 t1 t2 b,
            T op1 op2 t1 true -> T op2 op3 t2 b -> T op1 op3 (t1 ++ t2) b).
  { unfold T. intros op1 op2 op3 t1 t2 _ H1 H2.
    rewrite requested_app, length_app, Nat2Z.inj_add.
    unfold getBalancesTimeout in *. lia. }
  assert (Hrun : respects T (takeActions ticks)).
  { apply takeActions_respects; [done|done|].
    intros t Hin. specialize (Hticks t Hin).
    apply takeAction_respects; [done|done| | | |].
    - intros o. unfold T.
      destruct (requestBalancesFromNode_cases t o) as [->|(_ & Hlt & ->)];
        simpl; unfold getBalancesTimeout; lia.
    - intros o. unfold T.
      destruct (startProcessing_cases t o)
        as [->|[->|[(tr & -> & Hr & _)|[(m & tr & -> & Hr & _)
           |[(m & tr & -> & Hr & _)|(m & tr & _ & _ & -> & Hr & _)]]]]];
        simpl; rewrite ?Hr; simpl; lia.
    - intros o. unfold T.
      destruct (checkQuorum_sameButSignature o) as (_ & _ & _ & _ & -> & _).
      rewrite (proj1 (checkQuorum_silent o)). simpl. lia.
    - intros o. unfold T. rewrite doSubordinate_returns. simpl. lia. }
  specialize (Hrun op). unfold T in Hrun. lia.
Qed.

(** ** doSubordinate *)

(** X4. [doSubordinate] always returns, without any event, and changes
    nothing but [processed] flags of the current state's computation
    requests: it keeps their number, order and requests, sets the flag of
    exactly those that were unprocessed and whose message has arrived,
    never clears a flag, and a second call changes nothing more. *)
Theorem doSubordinate_marks (op : operator) :
  exists op',
    doSubordinate op = Returned tt op' []
    /\ doSubordinate op' = Returned tt op' []
    /\ op' = set_compRequests (currentStateCompRequests op')
               (nextStateCompRequests op) op
    /\ length (currentStateCompRequests op')
       = length (currentStateCompRequests op)
    /\ forall k cr, currentStateCompRequests op !! k = Some cr ->
       exists cr', currentStateCompRequests op' !! k = Some cr'
         /\ req cr' = req cr
         /\ (processed cr' = true
             <-> processed cr = true \/ reqMsg (req cr) <> None).
Proof.
  eexists. split; [apply doSubordinate_returns|].
  split; [|split; [done|split; [simpl; by rewrite length_fmap|]]].
  - rewrite doSubordinate_returns. simpl. f_equal.
    unfold set_compRequests. simpl. f_equal.
    rewrite <- list_fmap_compose. apply list_fmap_ext.
    intros _ cr _. apply markProcessed_idempotent.
  - intros k cr Hk. simpl. rewrite list_lookup_fmap, Hk. simpl.
    eexists. split; [done|]. unfold markProcessed.
    destruct (processed cr) eqn:Hp; simpl.
    + split; [done|]. rewrite ?Hp. by split; [left|].
    + destruct (reqMsg (req cr)) eqn:Hm; simpl.
      * split; [done|]. split; [by right|done].
      * split; [done|]. rewrite ?Hp. split; [done|]. by intros [?|?].
Qed.

(** ** setNewState *)

Lemma rangeRequests_final body (visited rest : list request) (op : operator) :
  exists rs, final (rangeRequests body visited rest op) = set_requests rs op
             /\ events (rangeRequests body visited rest op) = [].
Proof.
  revert visited. induction rest as [|r rest IH]; intros visited; simpl.
  - by eexists.
  - destruct (body r) as [r' [p|]]; [by eexists|apply IH].
Qed.

Lemma rangeRequests_returns body (visited rest : list request)
    (op : operator) :
  returns (rangeRequests body visited rest op) = true
  <-> forall r, r ∈ rest -> snd (body r) = None.
Proof.
  revert visited. induction rest as [|r rest IH]; intros visited; simpl.
  - split; [|done]. intros _ r Hin. by apply elem_of_nil in Hin.
  - destruct (body r) as [r' [p|]] eqn:Hbody; simpl.
    + split; [done|]. intros Hall.
      specialize (Hall r ltac:(by apply elem_of_cons; left)).
      by rewrite Hbody in Hall.
    + rewrite IH. split.
      * intros Hall r0 Hin. apply elem_of_cons in Hin as [->|Hin];
          [by rewrite Hbody|by apply Hall].
      * intros Hall r0 Hin. apply Hall. by apply elem_of_cons; right.
Qed.

Lemma rangeRequests_panic body (visited rest : list request) (op : operator) p :
  (forall r q, snd (body r) = Some q -> q = p) ->
  returns (rangeRequests body visited rest op) = false ->
  exists op', rangeRequests body visited rest op = Panicked p op' [].
Proof.
  intros Hp. revert visited. induction rest as [|r rest IH]; intros visited;
    simpl; [done|].
  destruct (body r) as [r' [q|]] eqn:Hbody; simpl; [|apply IH].
  intros _. rewrite (Hp r q) by (by rewrite Hbody). by eexists.
Qed.

Lemma rotateRequest_panics (next : bool) (own : nat) (r : request) :
  (snd (rotateRequest next own r) = None
   <-> next = false \/ reqMsg r = None
       \/ (own < length (notificationsCurrentState r)
           /\ own < length (notificationsNextState r)))
  /\ forall q, snd (rotateRequest next own r) = Some q -> q = IndexOutOfRange.
Proof.
  unfold rotateRequest. destruct next; simpl; [|split; [by split; auto|done]].
  destruct (reqMsg r) as [m|]; simpl; [|split; [by split; auto|done]].
  rewrite setAllFalse_replicate, length_replicate.
  repeat case_bool_decide; simpl; split;
    try (split; [done|intros [?|[?|[? ?]]]; done]);
    try (intros q Hq; congruence); try done;
    split; auto; intros _; right; right; done.
Qed.

Lemma setNewState_eq now tx vs (op : operator) :
  setNewState now tx vs op
  = rangeRequests (rotateRequest (isNextState op vs) (peerIndex op)) []
      (requests op) (resetFor now tx vs op).
Proof.
  unfold setNewState, resetLeader. unfold_monad. simpl.
  fold (isNextState op vs). unfold peerIndex at 1. simpl.
  fold (peerIndex op). fold (resetFor now tx vs op).
  by destruct (rangeRequests _ _ _ _).
Qed.

Lemma setNewState_final now tx vs (op : operator) :
  exists rs,
    final (setNewState now tx vs op)
    = set_requests rs (resetFor now tx vs op)
    /\ events (setNewState now tx vs op) = [].
Proof. rewrite setNewState_eq. apply rangeRequests_final. Qed.

(** X7. [setNewState] can only fail at a notification vector that does not
    reach this node's index.  It returns exactly when the transition is not
    to the direct successor state, or every request whose message has
    arrived has both vectors longer than the own index; otherwise it panics
    with an index out of range, after it has already adopted the new state,
    cleared the balances and discarded the round. *)
Theorem setNewState_returns_iff now tx vs (op : operator) :
  (returns (setNewState now tx vs op) = true
   <-> isNextState op vs = false
       \/ forall r, r ∈ requests op -> reqMsg r <> None ->
            peerIndex op < length (notificationsCurrentState r)
            /\ peerIndex op < length (notificationsNextState r))
  /\ (returns (setNewState now tx vs op) = false ->
      exists op',
        setNewState now tx vs op = Panicked IndexOutOfRange op' []
        /\ stateTx op' = Some tx /\ variableState op' = Some vs
        /\ balances op' = None /\ leaderStatus op' = None).
Proof.
  split.
  - rewrite setNewState_eq, rangeRequests_returns. split.
    + intros Hall. destruct (isNextState op vs) eqn:Hnext; [right|by left].
      intros r Hin Hmsg.
      destruct (proj1 (proj1 (rotateRequest_panics true (peerIndex op) r))
                  (Hall r Hin)) as [?|[?|?]]; done.
    + intros Hok r Hin. apply rotateRequest_panics.
      destruct Hok as [->|Hok]; [by left|].
      destruct (reqMsg r) eqn:Hm; [|by right; left].
      right; right. apply Hok; [done|by rewrite Hm].
  - intros Hret.
    destruct (setNewState_final now tx vs op) as (rs & Hfin & _).
    rewrite setNewState_eq in Hret, Hfin.
    destruct (rangeRequests_panic
                (rotateRequest (isNextState op vs) (peerIndex op)) []
                (requests op) (resetFor now tx vs op) IndexOutOfRange)
      as [op' Hp]; [|done|].
    { intros r q. apply rotateRequest_panics. }
    exists op'. rewrite setNewState_eq. split; [done|].
    rewrite Hp in Hfin. simpl in Hfin. by subst op'.
Qed.

(** ** After a state transition *)

Lemma takeAction_first_fetch t (op : operator) :
  iAmCurrentLeader op = true -> balances op = None ->
  leaderStatus op = None ->
  (getBalancesDeadline op < nowAtCheck t)%Z ->
  requested (events (takeAction t op)) = [committeeAddress (committee op)].
Proof.
  intros Hlead Hb Hl Hlt. rewrite takeAction_eq. unfold bind at 1.
  rewrite leaderRole_without_balances by done.
  destruct (requestBalancesFromNode_cases t op) as [Heq|(_ & _ & Heq)].
  - exfalso. unfold requestBalancesFromNode in Heq. unfold_monad.
    simpl in Heq. rewrite Hb in Heq. simpl in Heq.
    by rewrite (proj2 (Z.ltb_lt _ _) Hlt) in Heq.
  - rewrite Heq. unfold bind.
    rewrite checkQuorum_without_round by done.
    by rewrite doSubordinate_returns.
Qed.

(** X6. After [setNewState], however it ended, the operator holds no
    balances and no round and its balance deadline is the time of the call;
    from there every run of ticks returns and sends no StartProcessing
    message (nothing in a tick supplies balances), and a leader's tick whose
    clock is after the time of the call requests the balances of the
    committee address. *)
Theorem setNewState_then_ticks now tx vs (op : operator) ticks :
  let op' := final (setNewState now tx vs op) in
  balances op' = None /\ leaderStatus op' = None
  /\ getBalancesDeadline op' = now
  /\ returns (takeActions ticks op') = true
  /\ broadcast (events (takeActions ticks op')) = []
  /\ forall t, iAmCurrentLeader op' = true -> (now < nowAtCheck t)%Z ->
       requested (events (takeAction t op'))
       = [committeeAddress (committee op)].
Proof.
  intros op'. destruct (setNewState_final now tx vs op) as (rs & Hfin & _).
  fold op' in Hfin.
  assert (Hb : balances op' = None) by (by rewrite Hfin).
  assert (Hl : leaderStatus op' = None) by (by rewrite Hfin).
  assert (Hd : getBalancesDeadline op' = now) by (by rewrite Hfin).
  split; [done|]. split; [done|]. split; [done|].
  set (T := fun (o o' : operator) (tr : list event) (b : bool) =>
    balances o = None -> leaderStatus o = None ->
    b = true /\ broadcast tr = []
    /\ balances o' = None /\ leaderStatus o' = None).
  assert (Hcomp : forall op1 op2 op3 t1 t2 b,
            T op1 op2 t1 true -> T op2 op3 t2 b -> T op1 op3 (t1 ++ t2) b).
  { unfold T. intros op1 op2 op3 t1 t2 b H1 H2 Hb1 Hl1.
    destruct (H1 Hb1 Hl1) as (_ & Hbr1 & Hb2 & Hl2).
    destruct (H2 Hb2 Hl2) as (? & Hbr2 & ? & ?).
    by rewrite broadcast_app, Hbr1, Hbr2. }
  assert (Hrun : respects T (takeActions ticks)).
  { apply takeActions_respects; [done|done|].
    intros t _. apply takeAction_respects; [done|done| | | |].
    - intros o Hbo Hlo. by destruct (requestBalancesFromNode_cases t o)
        as [->|(_ & _ & ->)].
    - intros o Hbo Hlo. by rewrite startProcessing_early by auto.
    - intros o Hbo Hlo. by rewrite checkQuorum_without_round.
    - intros o Hbo Hlo. by rewrite doSubordinate_returns. }
  destruct (Hrun op' Hb Hl) as (Hret & Hbr & _).
  split; [done|]. split; [done|].
  intros t Hlead Hlt. rewrite takeAction_first_fetch; try done.
  - by rewrite Hfin.
  - by rewrite Hd.
Qed.

(** ** The tick that opens a round *)

Lemma takeMsgs_all (rs : list request) :
  snd (takeMsgs rs) = true -> Some <$> fst (takeMsgs rs) = reqMsg <$> rs.
Proof.
  induction rs as [|r rs IH]; [done|].
  rewrite fmap_cons. cbn [takeMsgs].
  destruct (reqMsg r) as [m|]; [|done].
  destruct (takeMsgs rs) as [ms [|]]; cbn [fst snd] in *; [|done].
  intros _. rewrite fmap_cons. f_equal. by apply IH.
Qed.

(** X8. A leader's tick with balances, no round in flight, a state
    transaction, a reward address, a non-empty selection whose messages have
    all arrived, and at least quorum()-1 successful sends returns, having
    broadcast once, opened the round and started one execution task.  The
    round holds the selected batch, the hash of the request ids that were
    broadcast, the timestamp of the broadcast, no result transaction and
    [Size()] empty signature slots; the task gets the messages of the batch
    in selection order, the same timestamp and balances as the broadcast;
    the quorum check of the same tick only logs. *)
Theorem takeAction_opens_round t (op : operator) bal stx reward :
  iAmCurrentLeader op = true ->
  balances op = Some bal -> leaderStatus op = None ->
  stateTx op = Some stx ->
  GetRewardAddress (committeeAddress (committee op)) = Some reward ->
  selectRequestsToProcess op <> [] ->
  (forall r, r ∈ selectRequestsToProcess op -> reqMsg r <> None) ->
  let m := startProcessingMsg op stx reward bal in
  (quorum op - 1 <= fst (SendMsgToPeers t m))%Z ->
  exists op' par,
    takeAction t op
    = Returned tt op'
        (sentTrace m ++
         [EvLog Debug "msgStartProcessingRequest successfully sent to %d peers";
          EvGoProcessRequest par;
          EvLog Debug "checkQuorum"])
    /\ leaderStatus op'
       = Some (mkLeaderStatus (selectRequestsToProcess op)
                 (BatchHash (msgRequestIds m)) (snd (SendMsgToPeers t m))
                 None false (replicate (Size (committee op)) None))
    /\ msgRequestIds m = reqId <$> selectRequestsToProcess op
    /\ Some <$> rcReqs par = reqMsg <$> selectRequestsToProcess op
    /\ rcTs par = snd (SendMsgToPeers t m)
    /\ rcBalances par = msgBalances m
    /\ rcLeaderPeerIndex par = OwnPeerIndex (committee op).
Proof.
  intros Hlead Hb Hl Hstx Hrew Hsel Hmsgs m Hge.
  assert (Hok : snd (takeMsgs (selectRequestsToProcess op)) = true).
  { destruct (snd (takeMsgs (selectRequestsToProcess op))) eqn:Hok; [done|].
    apply takeMsgs_nil_message in Hok as (r & Hin & Hnone).
    by destruct (Hmsgs r Hin). }
  pose proof (startProcessing_selected t op bal stx reward Hb Hl Hsel Hstx Hrew)
    as Heq. simpl in Heq. fold m in Heq.
  rewrite (proj2 (Z.ltb_ge _ _) Hge), Hok in Heq.
  do 2 eexists. split.
  - rewrite takeAction_eq. unfold leaderRole. unfold bind, get.
    rewrite Hlead, Hb, Heq. cbv beta iota.
    rewrite (checkQuorum_guard_round _ (newRound op (snd (SendMsgToPeers t m))))
      by done.
    rewrite doSubordinate_returns. cbv beta iota.
    reflexivity.
  - simpl. split; [done|]. split; [done|].
    split; [by apply takeMsgs_all|done].
Qed.

End MoreProperties.

(** * Properties of the solo backlog *)

Section SoloBacklog.
Import Solo.
Context `{RequestOps Request}.

Lemma take_S_insert_snoc (pre : list Request) (w : nat) (r : Request) :
  w <= length pre ->
  take (S w) (<[w:=r]> (pre ++ [r])) = take w pre ++ [r].
Proof.
  intros Hw.
  rewrite (take_S_r _ _ r).
  - rewrite take_insert_ge by lia. by rewrite take_app_le by lia.
  - apply list_lookup_insert_eq. rewrite length_app. simpl. lia.
Qed.

Lemma stamped_cons (clock : nat -> Z) (i : nat) (r : Request)
    (rs : list Request) :
  stamped clock i (r :: rs) = (r, clock i) :: stamped clock (S i) rs.
Proof. reflexivity. Qed.

Lemma stamped_app (clock : nat -> Z) (i : nat) (l1 l2 : list Request) :
  stamped clock i (l1 ++ l2)
  = stamped clock i l1 ++ stamped clock (i + length l1) l2.
Proof.
  revert i. induction l1 as [|r l1 IH]; intros i.
  - simpl. by rewrite Nat.add_0_r.
  - rewrite <- app_comm_cons, !stamped_cons, IH. simpl.
    by rewrite Nat.add_succ_r.
Qed.

Lemma stamped_snoc (clock : nat -> Z) (l : list Request) (r : Request) :
  stamped clock 0 (l ++ [r]) = stamped clock 0 l ++ [(r, clock (length l))].
Proof. by rewrite stamped_app. Qed.

Lemma fst_stamped (clock : nat -> Z) (i : nat) (rs : list Request) :
  (stamped clock i rs).*1 = rs.
Proof.
  unfold stamped. apply fst_zip. by rewrite length_fmap, length_seq.
Qed.

Lemma elem_of_stamped (clock : nat -> Z) (j : nat) (rs : list Request)
    (r : Request) (z : Z) :
  (r, z) ∈ stamped clock j rs
  <-> exists i, rs !! i = Some r /\ z = clock (j + i).
Proof.
  revert j. induction rs as [|r' rs IH]; intros j.
  - split.
    + intros Hin. by apply elem_of_nil in Hin.
    + intros (i & Hi & _). by rewrite lookup_nil in Hi.
  - rewrite stamped_cons, elem_of_cons, IH. split.
    + intros [Heq | (i & Hi & ->)].
      * injection Heq as -> ->. exists 0. by rewrite Nat.add_0_r.
      * exists (S i). split; [done|]. f_equal. lia.
    + intros (i & Hi & ->). destruct i as [|i].
      * left. simpl in Hi. injection Hi as ->. by rewrite Nat.add_0_r.
      * right. exists i. split; [done|]. f_equal. lia.
Qed.

(** The loop, entered with [pre] already read and [rest] still to read:
    what is kept is written over entries that have been read, and each
    request is judged by the reading of its own iteration. *)
Lemma collateLoop_spec (clock : nat -> Z) (rest pre : list Request) (w : nat)
    (out : list Request) (lg : list logLine) :
  w <= length pre ->
  let st := collateLoop clock (length pre) (length rest)
              (mkCollate (pre ++ rest) w out lg) in
  let read := stamped clock (length pre) rest in
  take (remainLen st) (arr st)
  = take w pre ++ (filter (fun p => ~ released p) read).*1
  /\ ret st = out ++ (filter released read).*1
  /\ logged st
     = lg ++ (UnlockedTimeLocked ∘ OutputID
                <$> filter (fun r => TimeLock r <> 0%Z)
                      (filter released read).*1).
Proof.
  revert pre w out lg. induction rest as [|r rest IH]; intros pre w out lg Hw.
  - simpl. by rewrite !app_nil_r.
  - cbn [length collateLoop]. cbn [arr].
    rewrite list_lookup_middle by done.
    unfold collateStep. cbn [arr remainLen ret logged].
    cbv zeta. rewrite stamped_cons, !filter_cons.
    destruct (Z.leb_spec (TimeLock r) (clock (length pre))) as [Hle|Hgt].
    + rewrite (decide_True (P := released (r, clock (length pre)))) by done.
      rewrite (decide_False (P := ~ released (r, clock (length pre))))
        by (unfold released; simpl; tauto).
      replace (pre ++ r :: rest) with ((pre ++ [r]) ++ rest)
        by (by rewrite <- app_assoc).
      replace (S (length pre)) with (length (pre ++ [r]))
        by (rewrite length_app; simpl; lia).
      destruct (IH (pre ++ [r]) w (out ++ [r])
                  (if (TimeLock r =? 0)%Z then lg
                   else lg ++ [UnlockedTimeLocked (OutputID r)]))
        as (Hk & Hr & Hl); [rewrite length_app; lia|].
      split; [|split].
      * rewrite Hk. by rewrite take_app_le by lia.
      * rewrite Hr. rewrite fmap_cons. by rewrite <- app_assoc.
      * rewrite Hl. rewrite fmap_cons, filter_cons. cbn [fst].
        destruct (Z.eqb_spec (TimeLock r) 0) as [Hz|Hnz].
        -- by rewrite decide_False by tauto.
        -- rewrite decide_True by done. rewrite fmap_cons.
           by rewrite <- app_assoc.
    + rewrite (decide_False (P := released (r, clock (length pre))))
        by (unfold released; simpl; lia).
      rewrite (decide_True (P := ~ released (r, clock (length pre))))
        by (unfold released; simpl; lia).
      replace (<[w:=r]> (pre ++ r :: rest))
        with (<[w:=r]> (pre ++ [r]) ++ rest); cycle 1.
      { rewrite <- insert_app_l by (rewrite length_app; simpl; lia).
        by rewrite <- app_assoc. }
      replace (S (length pre)) with (length (<[w:=r]> (pre ++ [r])))
        by (rewrite length_insert, length_app; simpl; lia).
      destruct (IH (<[w:=r]> (pre ++ [r])) (S w) out lg) as (Hk & Hr & Hl);
        [rewrite length_insert, length_app; simpl; lia|].
      split; [|done].
      rewrite Hk. rewrite take_S_insert_snoc by done.
      rewrite fmap_cons. by rewrite <- app_assoc.
Qed.

Lemma collateBatch_stamped (clock : nat -> Z) (backlog : list Request) :
  batch (collateBatch clock backlog)
  = (filter released (stamped clock 0 backlog)).*1
  /\ backlogAfter (collateBatch clock backlog)
     = (filter (fun p => ~ released p) (stamped clock 0 backlog)).*1
  /\ logLines (collateBatch clock backlog)
     = (UnlockedTimeLocked ∘ OutputID
          <$> filter (fun r => TimeLock r <> 0%Z)
                (filter released (stamped clock 0 backlog)).*1).
Proof.
  destruct (collateLoop_spec clock backlog [] 0 [] []) as (Hk & Hr & Hl);
    [simpl; lia|].
  simpl in Hk, Hr, Hl. unfold collateBatch. cbn [batch backlogAfter logLines].
  by rewrite Hk, Hr, Hl.
Qed.

Lemma collateBatch_permutation (clock : nat -> Z) (backlog : list Request) :
  batch (collateBatch clock backlog) ++ backlogAfter (collateBatch clock backlog)
  ≡ₚ backlog.
Proof.
  destruct (collateBatch_stamped clock backlog) as (-> & -> & _).
  rewrite <- fmap_app, filter_app_complement. by rewrite fst_stamped.
Qed.

(** A request is returned if the reading of its iteration releases it, and
    kept if that reading does not. *)
Lemma elem_of_batch (clock : nat -> Z) (backlog : list Request) (r : Request) :
  r ∈ batch (collateBatch clock backlog)
  <-> exists i, backlog !! i = Some r /\ (TimeLock r <= clock i)%Z.
Proof.
  destruct (collateBatch_stamped clock backlog) as (-> & _).
  rewrite list_elem_of_fmap. split.
  - intros ([r' z] & -> & Hin).
    apply list_elem_of_filter in Hin as [Hrel Hin].
    apply elem_of_stamped in Hin as (i & Hi & ->).
    exists i. by split.
  - intros (i & Hi & Hle). exists (r, clock i). split; [done|].
    apply list_elem_of_filter. split; [done|].
    apply elem_of_stamped. by exists i.
Qed.

Lemma elem_of_backlogAfter (clock : nat -> Z) (backlog : list Request)
    (r : Request) :
  r ∈ backlogAfter (collateBatch clock backlog)
  <-> exists i, backlog !! i = Some r /\ (clock i < TimeLock r)%Z.
Proof.
  destruct (collateBatch_stamped clock backlog) as (_ & -> & _).
  rewrite list_elem_of_fmap. split.
  - intros ([r' z] & -> & Hin).
    apply list_elem_of_filter in Hin as [Hrel Hin].
    apply elem_of_stamped in Hin as (i & Hi & ->).
    exists i. split; [done|]. unfold released in Hrel. simpl in *. lia.
  - intros (i & Hi & Hlt). exists (r, clock i). split; [done|].
    apply list_elem_of_filter. split; [unfold released; simpl; lia|].
    apply elem_of_stamped. by exists i.
Qed.

(** Readings that all agree with a test [P] of the request alone. *)
Lemma stamped_filter_ext (clock : nat -> Z) (P : Request -> Prop)
    `{forall r, Decision (P r)} (l : list Request) (j : nat) :
  (forall i r, l !! i = Some r ->
     (TimeLock r <= clock (j + i)%nat)%Z <-> P r) ->
  (filter released (stamped clock j l)).*1 = filter P l
  /\ (filter (fun p => ~ released p) (stamped clock j l)).*1
     = filter (fun r => ~ P r) l.
Proof.
  revert j. induction l as [|r l IH]; intros j Hall; [done|].
  destruct (IH (S j)) as [IH1 IH2].
  { intros i r' Hi. rewrite <- (Hall (S i) r' Hi). by rewrite Nat.add_succ_r. }
  pose proof (Hall 0 r eq_refl) as Hhd. rewrite Nat.add_0_r in Hhd.
  rewrite stamped_cons, !filter_cons.
  destruct (decide (P r)) as [HP|HP].
  - rewrite (decide_True (P := released (r, clock j)))
      by (unfold released; simpl; tauto).
    rewrite (decide_False (P := ~ released (r, clock j)))
      by (unfold released; simpl; tauto).
    rewrite (decide_False (P := ~ P r)) by tauto.
    rewrite fmap_cons. by rewrite IH1, IH2.
  - rewrite (decide_False (P := released (r, clock j)))
      by (unfold released; simpl; tauto).
    rewrite (decide_True (P := ~ released (r, clock j)))
      by (unfold released; simpl; tauto).
    rewrite (decide_True (P := ~ P r)) by tauto.
    rewrite fmap_cons. by rewrite IH1, IH2.
Qed.

(** A clock that stands still during the call. *)
Lemma collateBatch_still (clock : nat -> Z) (now : Z)
    (backlog : list Request) :
  (forall i, i < length backlog -> clock i = now) ->
  batch (collateBatch clock backlog)
  = filter (fun r => (TimeLock r <= now)%Z) backlog
  /\ backlogAfter (collateBatch clock backlog)
     = filter (fun r => ~ (TimeLock r <= now)%Z) backlog.
Proof.
  intros Hnow.
  destruct (collateBatch_stamped clock backlog) as (-> & -> & _).
  apply (stamped_filter_ext clock (fun r => (TimeLock r <= now)%Z)).
  intros i r Hi. simpl. rewrite Hnow; [done|]. by eapply lookup_lt_Some.
Qed.

(** Readings none of which releases a request. *)
Lemma collateBatch_none (clock : nat -> Z) (backlog : list Request) :
  (forall i r, backlog !! i = Some r -> (clock i < TimeLock r)%Z) ->
  batch (collateBatch clock backlog) = []
  /\ logLines (collateBatch clock backlog) = []
  /\ backlogAfter (collateBatch clock backlog) = backlog.
Proof.
  intros Hnone.
  destruct (collateBatch_stamped clock backlog) as (-> & -> & ->).
  destruct (stamped_filter_ext clock (fun _ => False) backlog 0) as [-> ->].
  { intros i r Hi. simpl. specialize (Hnone i r Hi). lia. }
  assert (Hf : filter (fun _ : Request => False) backlog = []).
  { clear. induction backlog as [|r l IH]; [done|].
    rewrite filter_cons. by rewrite decide_False by tauto. }
  assert (Ht : filter (fun _ : Request => ~ False) backlog = backlog).
  { clear. induction backlog as [|r l IH]; [done|].
    rewrite filter_cons. rewrite decide_True by tauto. by rewrite IH. }
  by rewrite Hf, Ht.
Qed.

Lemma filter_released_later (now now' : Z) (l : list Request) :
  filter (fun r => (TimeLock r <= now')%Z)
    (filter (fun r => ~ (TimeLock r <= now)%Z) l)
  = filter (fun r => (now < TimeLock r <= now')%Z) l.
Proof.
  induction l as [|r l IH]; [done|].
  rewrite !filter_cons. repeat case_decide; rewrite ?filter_cons;
    repeat case_decide; try lia; by rewrite ?IH.
Qed.

Lemma filter_kept_later (now now' : Z) (l : list Request) :
  (now <= now')%Z ->
  filter (fun r => ~ (TimeLock r <= now')%Z)
    (filter (fun r => ~ (TimeLock r <= now)%Z) l)
  = filter (fun r => ~ (TimeLock r <= now')%Z) l.
Proof.
  intros Hle. induction l as [|r l IH]; [done|].
  rewrite !filter_cons. repeat case_decide; rewrite ?filter_cons;
    repeat case_decide; try lia; by rewrite ?IH.
Qed.

(** X11. [collateBatch] filters the backlog in place without losing or
    repeating a request, reading the logical clock once for every request:
    it returns, in backlog order, the requests whose time lock is not after
    the reading of their own iteration, leaves the others in the backlog, in
    backlog order, and logs an unlock line for exactly the returned requests
    that had a time lock; batch and remaining backlog together are a
    permutation of the backlog.  If the clock stands still during the call,
    the batch is the requests whose time lock is not after that time. *)
Theorem collateBatch_partition (clock : nat -> Z) (backlog : list Request) :
  let read := stamped clock 0 backlog in
  let res := collateBatch clock backlog in
  batch res = (filter released read).*1
  /\ backlogAfter res = (filter (fun p => ~ released p) read).*1
  /\ logLines res
     = (UnlockedTimeLocked ∘ OutputID
          <$> filter (fun r => TimeLock r <> 0%Z) (batch res))
  /\ batch res ++ backlogAfter res ≡ₚ backlog
  /\ (forall r, r ∈ batch res
        <-> exists i, backlog !! i = Some r /\ (TimeLock r <= clock i)%Z)
  /\ (forall r, r ∈ backlogAfter res
        <-> exists i, backlog !! i = Some r /\ (clock i < TimeLock r)%Z)
  /\ forall now, (forall i, i < length backlog -> clock i = now) ->
       batch res = filter (fun r => (TimeLock r <= now)%Z) backlog
       /\ backlogAfter res = filter (fun r => ~ (TimeLock r <= now)%Z) backlog.
Proof.
  intros read res. subst read res.
  destruct (collateBatch_stamped clock backlog) as (Hr & Hk & Hl).
  split; [done|]. split; [done|]. split; [by rewrite Hl, Hr|].
  split; [apply collateBatch_permutation|].
  split; [intros r; apply elem_of_batch|].
  split; [intros r; apply elem_of_backlogAfter|].
  intros now Hnow. by apply collateBatch_still.
Qed.

(** X12. Two calls of [collateBatch] in a row, the first with clock
    readings between [lo1] and [hi1] and the second with readings between
    [lo2] and [hi2], never return a request twice and never lose one: the
    two batches and the backlog that is left are together a permutation of
    the backlog.  The second call returns only requests whose time lock is
    after [lo1] and not after [hi2]; the backlog it leaves holds only
    requests locked beyond [lo1] and [lo2]; a request whose time lock is not
    after [lo1] is in the first batch, and one whose time lock is not after
    [lo2] is in one of the two.  If the second call reads nothing later than
    the first call's earliest reading, it returns and logs nothing and
    leaves the backlog as it is.  With a clock that stands still at [now]
    in the first call and at [now'] in the second, the second call returns
    exactly the requests whose time lock is after [now] and not after
    [now'], and if [now <= now'] leaves what a single call at [now'] would
    leave. *)
Theorem collateBatch_advancing (c1 c2 : nat -> Z) (lo1 hi1 lo2 hi2 : Z)
    (backlog : list Request) :
  (forall i, i < length backlog -> (lo1 <= c1 i <= hi1)%Z) ->
  (forall i, i < length (backlogAfter (collateBatch c1 backlog)) ->
             (lo2 <= c2 i <= hi2)%Z) ->
  let first := collateBatch c1 backlog in
  let second := collateBatch c2 (backlogAfter first) in
  batch first ++ batch second ++ backlogAfter second ≡ₚ backlog
  /\ (forall r, r ∈ batch first -> (TimeLock r <= hi1)%Z)
  /\ (forall r, r ∈ batch second -> (lo1 < TimeLock r <= hi2)%Z)
  /\ (forall r, r ∈ backlogAfter second ->
        (lo1 < TimeLock r)%Z /\ (lo2 < TimeLock r)%Z)
  /\ (forall r, r ∈ backlog -> (TimeLock r <= lo1)%Z -> r ∈ batch first)
  /\ (forall r, r ∈ backlog -> (TimeLock r <= lo2)%Z ->
        r ∈ batch first ++ batch second)
  /\ ((hi2 <= lo1)%Z ->
      batch second = [] /\ logLines second = []
      /\ backlogAfter second = backlogAfter first)
  /\ forall now now',
       (forall i, i < length backlog -> c1 i = now) ->
       (forall i, i < length (backlogAfter first) -> c2 i = now') ->
       batch second = filter (fun r => (now < TimeLock r <= now')%Z) backlog
       /\ ((now <= now')%Z ->
           backlogAfter second
           = filter (fun r => ~ (TimeLock r <= now')%Z) backlog).
Proof.
  intros H1 H2 first second.
  assert (Hfirst : forall r, r ∈ batch first -> (TimeLock r <= hi1)%Z).
  { intros r Hin. apply elem_of_batch in Hin as (i & Hi & Hle).
    apply lookup_lt_Some in Hi. specialize (H1 i Hi). lia. }
  assert (Hafter1 : forall r, r ∈ backlogAfter first -> (lo1 < TimeLock r)%Z).
  { intros r Hin. apply elem_of_backlogAfter in Hin as (i & Hi & Hlt).
    apply lookup_lt_Some in Hi. specialize (H1 i Hi). lia. }
  assert (Hsecond : forall r, r ∈ batch second -> (lo1 < TimeLock r <= hi2)%Z).
  { intros r Hin. apply elem_of_batch in Hin as (i & Hi & Hle).
    split; [apply Hafter1; by eapply list_elem_of_lookup_2|].
    apply lookup_lt_Some in Hi. specialize (H2 i Hi). lia. }
  assert (Hafter2 : forall r, r ∈ backlogAfter second ->
                      (lo1 < TimeLock r)%Z /\ (lo2 < TimeLock r)%Z).
  { intros r Hin. apply elem_of_backlogAfter in Hin as (i & Hi & Hlt).
    split; [apply Hafter1; by eapply list_elem_of_lookup_2|].
    apply lookup_lt_Some in Hi. specialize (H2 i Hi). lia. }
  assert (Hsplit1 : forall r, r ∈ backlog ->
                      r ∈ batch first \/ r ∈ backlogAfter first).
  { intros r Hin. apply elem_of_app. unfold first.
    by rewrite (collateBatch_permutation c1 backlog). }
  assert (Hsplit2 : forall r, r ∈ backlogAfter first ->
                      r ∈ batch second \/ r ∈ backlogAfter second).
  { intros r Hin. apply elem_of_app. unfold second.
    by rewrite (collateBatch_permutation c2 (backlogAfter first)). }
  split.
  { unfold second.
    rewrite (collateBatch_permutation c2 (backlogAfter first)).
    apply collateBatch_permutation. }
  split; [done|]. split; [done|]. split; [done|].
  split.
  { intros r Hin Hle. destruct (Hsplit1 r Hin) as [?|Hk]; [done|].
    apply Hafter1 in Hk. lia. }
  split.
  { intros r Hin Hle. apply elem_of_app.
    destruct (Hsplit1 r Hin) as [?|Hk]; [by left|]. right.
    destruct (Hsplit2 r Hk) as [?|Hk2]; [done|].
    apply Hafter2 in Hk2. lia. }
  split.
  { intros Hback. apply collateBatch_none. intros i r Hi.
    pose proof (Hafter1 r (list_elem_of_lookup_2 _ _ _ Hi)).
    apply lookup_lt_Some in Hi. specialize (H2 i Hi). lia. }
  intros now now' Hnow Hnow'.
  destruct (collateBatch_still c1 now backlog Hnow) as (_ & Hk1).
  destruct (collateBatch_still c2 now' (backlogAfter first) Hnow')
    as (Hb2 & Hk2).
  fold first in Hk1. fold second in Hb2, Hk2.
  rewrite Hk1 in Hb2, Hk2. rewrite filter_released_later in Hb2.
  split; [done|]. intros Hle. by rewrite filter_kept_later in Hk2.
Qed.

(** X13. A request added by [addToBacklog] goes to the end of the backlog
    and is treated by the next [collateBatch] after all the others, by the
    clock reading of the last iteration: if that reading is not before its
    time lock it is the last request of the batch, with an unlock line at
    the end of the log if it had a time lock, and otherwise it is the last
    request of the backlog that is left; what the call does with the
    other requests is not changed. *)
Theorem addToBacklog_then_collateBatch (clock : nat -> Z) (r : Request)
    (backlog : list Request) :
  let before := collateBatch clock backlog in
  let after := collateBatch clock (fst (addToBacklog r backlog)) in
  let now := clock (length backlog) in
  ((TimeLock r <= now)%Z ->
   batch after = batch before ++ [r]
   /\ backlogAfter after = backlogAfter before
   /\ logLines after
      = logLines before
        ++ (if (TimeLock r =? 0)%Z then []
            else [UnlockedTimeLocked (OutputID r)]))
  /\ ((now < TimeLock r)%Z ->
      batch after = batch before
      /\ backlogAfter after = backlogAfter before ++ [r]
      /\ logLines after = logLines before).
Proof.
  intros before after now. subst before after now.
  destruct (collateBatch_stamped clock backlog) as (Hb & Hk & Hl).
  destruct (collateBatch_stamped clock (backlog ++ [r])) as (Hb' & Hk' & Hl').
  change (fst (addToBacklog r backlog)) with (backlog ++ [r]).
  rewrite stamped_snoc, filter_app in Hb', Hk', Hl'.
  rewrite filter_cons, filter_nil in Hb', Hk', Hl'.
  rewrite Hb', Hk', Hl', Hb, Hk, Hl. clear Hb' Hk' Hl' Hb Hk Hl.
  split; intros Ht.
  - rewrite (decide_True (P := released (r, clock (length backlog))))
      by (unfold released; simpl; lia).
    rewrite (decide_False (P := ~ released (r, clock (length backlog))))
      by (unfold released; simpl; lia).
    rewrite app_nil_r, !fmap_app, filter_app, fmap_app.
    split; [done|]. split; [done|]. f_equal.
    cbn [fmap list_fmap fst]. rewrite filter_cons, filter_nil.
    destruct (Z.eqb_spec (TimeLock r) 0) as [Hz|Hnz].
    + by rewrite decide_False by tauto.
    + by rewrite decide_True by done.
  - rewrite (decide_False (P := released (r, clock (length backlog))))
      by (unfold released; simpl; lia).
    rewrite (decide_True (P := ~ released (r, clock (length backlog))))
      by (unfold released; simpl; lia).
    by rewrite !app_nil_r, fmap_app.
Qed.

End SoloBacklog.

Section SoloDispatch.
Import Solo.
Context `{OutputOps Output Sender Request}.

Lemma RequestsByChain_fold (outputs : list Output) (sender : Sender)
    (acc : gmap Address (list Request)) (a : Address) :
  let m := foldl (fun ret out =>
             match extendedLockedAddress out with
             | None => ret
             | Some a =>
                 <[a := default [] (ret !! a) ++ [RequestFromOutput out sender]]>
                   ret
             end) acc outputs in
  default [] (m !! a)
  = default [] (acc !! a)
    ++ ((fun out => RequestFromOutput out sender)
          <$> filter (fun out => extendedLockedAddress out = Some a) outputs)
  /\ (is_Some (m !! a)
      <-> is_Some (acc !! a)
          \/ exists out, out ∈ outputs /\ extendedLockedAddress out = Some a).
Proof.
  revert acc. induction outputs as [|out outputs IH]; intros acc; simpl.
  - rewrite app_nil_r. split; [done|]. split; [by left|].
    intros [?|(out & Hin & _)]; [done|]. by apply elem_of_nil in Hin.
  - destruct (IH (match extendedLockedAddress out with
                  | None => acc
                  | Some a0 =>
                      <[a0 := default [] (acc !! a0)
                              ++ [RequestFromOutput out sender]]> acc
                  end)) as [Hdef Hsome].
    rewrite filter_cons.
    destruct (extendedLockedAddress out) as [a0|] eqn:Hext.
    + destruct (decide (a0 = a)) as [->|Hne].
      * rewrite decide_True by done. rewrite lookup_insert_eq in Hdef, Hsome.
        simpl in Hdef. split.
        -- rewrite Hdef. rewrite fmap_cons. by rewrite <- app_assoc.
        -- rewrite Hsome. split.
           ++ intros _. right. exists out. split; [by apply elem_of_cons; left|done].
           ++ intros _. by left.
      * rewrite decide_False by congruence.
        rewrite lookup_insert_ne in Hdef, Hsome by done.
        split; [done|]. rewrite Hsome. split.
        -- intros [?|(o & Hin & Ho)]; [by left|].
           right. exists o. split; [by apply elem_of_cons; right|done].
        -- intros [?|(o & Hin & Ho)]; [by left|].
           apply elem_of_cons in Hin as [->|Hin]; [congruence|].
           right. by exists o.
    + rewrite decide_False by congruence. split; [done|].
      rewrite Hsome. split.
      * intros [?|(o & Hin & Ho)]; [by left|].
        right. exists o. split; [by apply elem_of_cons; right|done].
      * intros [?|(o & Hin & Ho)]; [by left|].
        apply elem_of_cons in Hin as [->|Hin]; [congruence|].
        right. by exists o.
Qed.

(** X14. [RequestsForChain] returns the requests made from exactly the
    extended locked outputs of the transaction that are addressed to the
    chain, in the order of the outputs, and nothing for a chain no output is
    addressed to; [RequestsByChain] has an entry for exactly the addresses
    of the extended locked outputs, and never an empty one. *)
Theorem RequestsForChain_outputs (outputs : list Output) (sender : Sender) :
  (forall chid,
     RequestsForChain outputs sender chid
     = (fun out => RequestFromOutput out sender)
         <$> filter (fun out => extendedLockedAddress out = Some chid) outputs)
  /\ (forall a,
        is_Some (RequestsByChain outputs sender !! a)
        <-> exists out, out ∈ outputs /\ extendedLockedAddress out = Some a)
  /\ (forall a l, RequestsByChain outputs sender !! a = Some l -> l <> []).
Proof.
  assert (Hsome : forall a,
    is_Some (RequestsByChain outputs sender !! a)
    <-> exists out, out ∈ outputs /\ extendedLockedAddress out = Some a).
  { intros a. destruct (RequestsByChain_fold outputs sender ∅ a) as [_ Hs].
    unfold RequestsByChain. rewrite Hs. rewrite lookup_empty.
    split; [intros [[? ?]|?]; done|by right]. }
  assert (Hdef : forall chid,
    RequestsForChain outputs sender chid
    = (fun out => RequestFromOutput out sender)
        <$> filter (fun out => extendedLockedAddress out = Some chid) outputs).
  { intros chid.
    destruct (RequestsByChain_fold outputs sender ∅ chid) as [Hd _].
    unfold RequestsForChain, RequestsByChain. rewrite Hd.
    by rewrite lookup_empty. }
  split; [done|]. split; [done|].
  intros a l Hl Hnil. subst l.
  destruct (proj1 (Hsome a)) as (out & Hin & Hext); [by eexists|].
  specialize (Hdef a). unfold RequestsForChain in Hdef.
  rewrite Hl in Hdef. simpl in Hdef. symmetry in Hdef.
  apply fmap_nil_inv in Hdef.
  assert (Hf : out ∈ filter (fun out => extendedLockedAddress out = Some a)
                      outputs) by (by apply list_elem_of_filter).
  rewrite Hdef in Hf. by apply elem_of_nil in Hf.
Qed.

End SoloDispatch.

(** * Properties of the root contract's utilities *)

Section RootUtil.
Import Root.
Context `{Store}.

Lemma FindContract_cases (state : KVStore) (hname : Hname) :
  (hname = InterfaceHname
   /\ FindContract state hname = inr RootContractRecord)
  \/ (hname <> InterfaceHname
      /\ contractRegistryGetAt state hname = None
      /\ FindContract state hname = inl (ErrContractNotFound hname))
  \/ (exists bin err,
        hname <> InterfaceHname
        /\ contractRegistryGetAt state hname = Some bin
        /\ DecodeContractRecord bin = inl err
        /\ FindContract state hname = inl (ErrRoot err))
  \/ (exists bin rec,
        hname <> InterfaceHname
        /\ contractRegistryGetAt state hname = Some bin
        /\ DecodeContractRecord bin = inr rec
        /\ FindContract state hname = inr rec).
Proof.
  unfold FindContract. case_bool_decide as Hroot; [by left|].
  destruct (contractRegistryGetAt state hname) as [bin|] eqn:Hreg;
    [|by right; left].
  destruct (DecodeContractRecord bin) as [err|rec] eqn:Hdec.
  - right; right; left. by exists bin, err.
  - right; right; right. by exists bin, rec.
Qed.

Lemma GetFeeInfo_found (state : KVStore) (hname : Hname)
    (rec : ContractRecord) :
  FindContract state hname = inr rec ->
  GetFeeInfo state hname
  = inr (default ColorIOTA (feeColorVar state),
         (if decide (OwnerFee rec = 0%Z)
          then default 0%Z (defaultOwnerFeeVar state)
          else OwnerFee rec),
         (if decide (ValidatorFee rec = 0%Z)
          then default 0%Z (defaultValidatorFeeVar state)
          else ValidatorFee rec)).
Proof.
  intros Hfind. unfold GetFeeInfo. rewrite Hfind.
  destruct (Z.eqb_spec (OwnerFee rec) 0) as [Ho|Ho],
           (Z.eqb_spec (ValidatorFee rec) 0) as [Hv|Hv],
           (feeColorVar state), (defaultOwnerFeeVar state),
           (defaultValidatorFeeVar state);
    repeat case_decide; simpl; congruence.
Qed.

(** X15. [GetFeeInfo] fails only for want of the contract.  For the name
    of the root contract [FindContract] returns [RootContractRecord] without
    reading the registry, so that [GetFeeInfo] succeeds with the fees of
    that record whatever the registry holds, under that name or any other;
    for another contract it fails exactly when the registry has no entry for
    the name or the entry does not decode, and otherwise uses the record
    that the entry decodes to.  Fee variables that are missing or do not
    decode are no error.  When it succeeds the fee colour is the chain's, or
    IOTA if the chain has none, and each fee is the record's, unless that is
    zero, in which case it is the chain's default if there is one: a zero
    fee is reported only if the record's fee is zero and the chain's default
    is zero or missing. *)
Theorem GetFeeInfo_fees (state : KVStore) (hname : Hname) :
  (hname = InterfaceHname ->
   FindContract state hname = inr RootContractRecord
   /\ GetFeeInfo state hname
      = inr (default ColorIOTA (feeColorVar state),
             (if decide (OwnerFee RootContractRecord = 0%Z)
              then default 0%Z (defaultOwnerFeeVar state)
              else OwnerFee RootContractRecord),
             (if decide (ValidatorFee RootContractRecord = 0%Z)
              then default 0%Z (defaultValidatorFeeVar state)
              else ValidatorFee RootContractRecord)))
  /\ (hname <> InterfaceHname ->
      ((exists err, GetFeeInfo state hname = inl err)
       <-> contractRegistryGetAt state hname = None
           \/ exists bin err,
                contractRegistryGetAt state hname = Some bin
                /\ DecodeContractRecord bin = inl err))
  /\ (forall color ownerFee validatorFee,
        GetFeeInfo state hname = inr (color, ownerFee, validatorFee) ->
        exists rec,
          FindContract state hname = inr rec
          /\ ((hname = InterfaceHname /\ rec = RootContractRecord)
              \/ (hname <> InterfaceHname
                  /\ exists bin,
                       contractRegistryGetAt state hname = Some bin
                       /\ DecodeContractRecord bin = inr rec))
          /\ color = default ColorIOTA (feeColorVar state)
          /\ ownerFee
             = (if decide (OwnerFee rec = 0%Z)
                then default 0%Z (defaultOwnerFeeVar state)
                else OwnerFee rec)
          /\ validatorFee
             = (if decide (ValidatorFee rec = 0%Z)
                then default 0%Z (defaultValidatorFeeVar state)
                else ValidatorFee rec)
          /\ (ownerFee = 0%Z
              <-> OwnerFee rec = 0%Z
                  /\ default 0%Z (defaultOwnerFeeVar state) = 0%Z)
          /\ (validatorFee = 0%Z
              <-> ValidatorFee rec = 0%Z
                  /\ default 0%Z (defaultValidatorFeeVar state) = 0%Z)).
Proof.
  assert (Hfees : forall rec color ofee vfee,
            FindContract state hname = inr rec ->
            GetFeeInfo state hname = inr (color, ofee, vfee) ->
            color = default ColorIOTA (feeColorVar state)
            /\ ofee = (if decide (OwnerFee rec = 0%Z)
                       then default 0%Z (defaultOwnerFeeVar state)
                       else OwnerFee rec)
            /\ vfee = (if decide (ValidatorFee rec = 0%Z)
                       then default 0%Z (defaultValidatorFeeVar state)
                       else ValidatorFee rec)
            /\ (ofee = 0%Z
                <-> OwnerFee rec = 0%Z
                    /\ default 0%Z (defaultOwnerFeeVar state) = 0%Z)
            /\ (vfee = 0%Z
                <-> ValidatorFee rec = 0%Z
                    /\ default 0%Z (defaultValidatorFeeVar state) = 0%Z)).
  { intros rec color ofee vfee Hfind Heq.
    rewrite (GetFeeInfo_found state hname rec Hfind) in Heq.
    injection Heq as <- <- <-.
    repeat case_decide; repeat split; try done; try tauto; try lia. }
  destruct (FindContract_cases state hname)
    as [[Hr Hfind]|[(Hr & Hreg & Hfind)|[(bin & err & Hr & Hreg & Hdec & Hfind)
       |(bin & rec & Hr & Hreg & Hdec & Hfind)]]].
  - split; [intros _; split; [done|by apply GetFeeInfo_found]|].
    split; [done|].
    intros color ofee vfee Heq. exists RootContractRecord.
    split; [done|]. split; [by left|]. by apply Hfees.
  - unfold GetFeeInfo. rewrite Hfind.
    split; [done|]. split; [|done]. intros _. split; [by left|by eexists].
  - unfold GetFeeInfo. rewrite Hfind.
    split; [done|]. split; [|done]. intros _.
    split; [right; by exists bin, err|by eexists].
  - split; [done|]. split.
    + intros _. rewrite (GetFeeInfo_found state hname rec Hfind).
      split; [by intros [? ?]|].
      intros [?|(bin' & err & ? & ?)]; congruence.
    + intros color ofee vfee Heq. exists rec.
      split; [done|]. split; [right; split; [done|by exists bin]|].
      by apply Hfees.
Qed.

Lemma decodeEntries_prefix (entries : list (Bytes * Bytes))
    (acc : gmap Hname ContractRecord) :
  fst (decodeEntries entries acc)
  = foldl (fun m d => <[fst d := snd d]> m) acc (decodedPrefix entries)
  /\ (snd (decodeEntries entries acc) = None
      <-> length (decodedPrefix entries) = length entries).
Proof.
  revert acc. induction entries as [|[k v] entries IH]; intros acc;
    [done|].
  cbn [decodeEntries decodedPrefix]. unfold decodeEntry. cbn [fst snd].
  destruct (NewHnameFromBytes k) as [e|h]; [by split|].
  destruct (DecodeContractRecord v) as [e|cr]; [by split|].
  destruct (IH (<[h:=cr]> acc)) as [Hm He]. split; [done|].
  rewrite He. simpl. lia.
Qed.

Lemma foldl_insert_lookup (ds : list (Hname * ContractRecord))
    (acc : gmap Hname ContractRecord) h cr :
  NoDup ds.*1 ->
  foldl (fun m d => <[fst d := snd d]> m) acc ds !! h = Some cr
  <-> (h, cr) ∈ ds \/ ((h ∉ (ds.*1)) /\ acc !! h = Some cr).
Proof.
  revert acc. induction ds as [|[h' cr'] ds IH]; intros acc Hnd.
  - simpl. split; [intros ?; right; split; [apply not_elem_of_nil|done]|].
    intros [Hin|[_ ?]]; [by apply elem_of_nil in Hin|done].
  - rewrite fmap_cons in Hnd. apply NoDup_cons in Hnd as [Hnotin Hnd].
    cbn [foldl fst snd]. rewrite (IH _ Hnd). rewrite fmap_cons. cbn [fst].
    rewrite elem_of_cons, not_elem_of_cons.
    destruct (decide (h = h')) as [->|Hne].
    + rewrite lookup_insert_eq. split.
      * intros [Hin|[_ Heq]].
        -- exfalso. apply Hnotin. apply list_elem_of_fmap.
           by exists (h', cr).
        -- left; left. congruence.
      * intros [[Heq|Hin]|[[? _] _]]; [|left; done|done].
        right. split; [done|]. congruence.
    + rewrite lookup_insert_ne by done. split.
      * intros [Hin|[? ?]]; [left; by right|by right].
      * intros [[Heq|Hin]|[[_ ?] ?]]; [congruence|by left|by right].
Qed.

(** X16. [DecodeContractRegistry] returns an error exactly when some entry
    of the registry does not decode (its key as a name, or its value as a
    record).  The map it returns, also beside an error, holds the entries
    visited before the first one that does not decode: if their names are
    distinct, a name is mapped to a record exactly when one of those
    entries decodes to that name and record. *)
Theorem DecodeContractRegistry_entries (entries : list (Bytes * Bytes)) :
  (snd (DecodeContractRegistry entries) = None
   <-> forall e, e ∈ entries -> is_Some (decodeEntry e))
  /\ (NoDup (decodedPrefix entries).*1 ->
      forall h cr,
        fst (DecodeContractRegistry entries) !! h = Some cr
        <-> (h, cr) ∈ decodedPrefix entries)
  /\ (forall err, snd (DecodeContractRegistry entries) = Some err ->
      exists before e after,
        entries = before ++ e :: after
        /\ decodeEntry e = None
        /\ Some <$> decodedPrefix entries = decodeEntry <$> before).
Proof.
  unfold DecodeContractRegistry.
  destruct (decodeEntries_prefix entries ∅) as [Hm He].
  split; [|split].
  - rewrite He. clear. induction entries as [|e entries IH]; simpl.
    + split; [|done]. intros _ e Hin. by apply elem_of_nil in Hin.
    + destruct (decodeEntry e) as [d|] eqn:Hd; simpl.
      * split.
        -- intros Hlen e' Hin. apply elem_of_cons in Hin as [->|Hin];
             [by rewrite Hd|]. apply IH; [lia|done].
        -- intros Hall. f_equal. apply IH. intros e' Hin. apply Hall.
           by apply elem_of_cons; right.
      * split; [done|]. intros Hall.
        destruct (Hall e ltac:(by apply elem_of_cons; left)) as [? ?].
        congruence.
  - intros Hnd h cr. rewrite Hm. rewrite foldl_insert_lookup by done.
    rewrite lookup_empty. split; [by intros [?|[_ ?]]|by left].
  - intros err Herr.
    assert (Hlen : length (decodedPrefix entries) <> length entries).
    { intros Hlen. apply He in Hlen. congruence. }
    clear -Hlen. induction entries as [|e entries IH]; [done|].
    simpl in *. destruct (decodeEntry e) as [d|] eqn:Hd.
    + destruct IH as (before & e' & after & -> & Hnone & Hpre);
        [simpl in Hlen; lia|].
      exists (e :: before), e', after. split; [done|]. split; [done|].
      rewrite !fmap_cons. by rewrite Hd, Hpre.
    + by exists [], e, entries.
Qed.

End RootUtil.

(** * Properties of the cluster test setup *)

Lemma wrapInt_in_range (intBits z : Z) :
  (0 < intBits)%Z ->
  (- 2 ^ (intBits - 1) <= z < 2 ^ (intBits - 1))%Z ->
  WaspTest.wrapInt intBits z = z.
Proof.
  intros Hbits Hz. unfold WaspTest.wrapInt.
  assert (Hpow : (2 ^ intBits = 2 * 2 ^ (intBits - 1))%Z).
  { rewrite <- Z.pow_succ_r by lia. f_equal. lia. }
  rewrite Z.mod_small by lia. lia.
Qed.

Lemma defaultExpectations_lookup (intBits nrOfRequests : Z) :
  WaspTest.defaultExpectations intBits nrOfRequests !! "chainrec" = Some 2%Z
  /\ WaspTest.defaultExpectations intBits nrOfRequests !! "active_committee"
     = Some 1%Z
  /\ WaspTest.defaultExpectations intBits nrOfRequests !! "dismissed_committee"
     = Some 0%Z
  /\ WaspTest.defaultExpectations intBits nrOfRequests !! "state"
     = Some (WaspTest.addInt intBits 3 nrOfRequests)
  /\ WaspTest.defaultExpectations intBits nrOfRequests !! "request_in"
     = Some (WaspTest.addInt intBits 2 nrOfRequests)
  /\ WaspTest.defaultExpectations intBits nrOfRequests !! "request_out"
     = Some (WaspTest.addInt intBits 3 nrOfRequests).
Proof.
  unfold WaspTest.defaultExpectations.
  repeat split;
    repeat (rewrite lookup_insert_ne by discriminate);
    by rewrite lookup_insert_eq.
Qed.

Lemma defaultExpectations_other (intBits nrOfRequests : Z) (k : string) :
  k ∉ WaspTest.defaultKeys ->
  WaspTest.defaultExpectations intBits nrOfRequests !! k = None.
Proof.
  unfold WaspTest.defaultKeys. rewrite !not_elem_of_cons.
  intros (? & ? & ? & ? & ? & ? & _).
  unfold WaspTest.defaultExpectations.
  rewrite !lookup_insert_ne by congruence. apply lookup_empty.
Qed.

Lemma expectations_lookup (intBits nrOfRequests : Z)
    (expectedMessages : gmap string Z) (k : string) :
  WaspTest.expectations intBits nrOfRequests expectedMessages !! k
  = match expectedMessages !! k with
    | Some v => Some v
    | None => WaspTest.defaultExpectations intBits nrOfRequests !! k
    end.
Proof.
  revert k. unfold WaspTest.expectations.
  apply (map_fold_weak_ind
           (fun acc (m : gmap string Z) => forall k,
              acc !! k
              = match m !! k with
                | Some v => Some v
                | None =>
                    WaspTest.defaultExpectations intBits nrOfRequests !! k
                end)).
  - intros k. by rewrite lookup_empty.
  - intros i x m r Hnone IH k. destruct (decide (i = k)) as [->|Hne].
    + by rewrite !lookup_insert_eq.
    + rewrite !lookup_insert_ne by done. apply IH.
Qed.

(** X17. The expectations [setupAndLoad] listens for are the caller's
    counts where the caller gives one, and otherwise the defaults.  The
    defaults are six: "chainrec" 2, "active_committee" 1,
    "dismissed_committee" 0, and "state", "request_in" and "request_out",
    which are 3, 2 and 3 more than the number of requests, in the arithmetic
    of [int], which wraps around; the sums are the mathematical ones when
    they fit the type.  Each of the six messages is expected with some count
    whatever the caller passes, and any other message only with the count
    the caller gives. *)
Theorem expectations_override (intBits nrOfRequests : Z)
    (expectedMessages : gmap string Z) :
  let defaults := WaspTest.defaultExpectations intBits nrOfRequests in
  let expected := WaspTest.expectations intBits nrOfRequests expectedMessages in
  (forall k,
     expected !! k
     = match expectedMessages !! k with
       | Some v => Some v
       | None => defaults !! k
       end)
  /\ defaults !! "chainrec" = Some 2%Z
  /\ defaults !! "active_committee" = Some 1%Z
  /\ defaults !! "dismissed_committee" = Some 0%Z
  /\ defaults !! "state"
     = Some (WaspTest.wrapInt intBits (3 + nrOfRequests))
  /\ defaults !! "request_in"
     = Some (WaspTest.wrapInt intBits (2 + nrOfRequests))
  /\ defaults !! "request_out"
     = Some (WaspTest.wrapInt intBits (3 + nrOfRequests))
  /\ (forall k,
        k ∉ ["chainrec"; "active_committee"; "dismissed_committee"; "state";
             "request_in"; "request_out"] ->
        defaults !! k = None /\ expected !! k = expectedMessages !! k)
  /\ (forall k,
        k ∈ ["chainrec"; "active_committee"; "dismissed_committee"; "state";
             "request_in"; "request_out"] ->
        is_Some (expected !! k))
  /\ ((0 < intBits)%Z ->
      (- 2 ^ (intBits - 1) <= nrOfRequests)%Z ->
      (3 + nrOfRequests < 2 ^ (intBits - 1))%Z ->
      (expectedMessages !! "state" = None ->
       expected !! "state" = Some (3 + nrOfRequests)%Z)
      /\ (expectedMessages !! "request_in" = None ->
          expected !! "request_in" = Some (2 + nrOfRequests)%Z)
      /\ (expectedMessages !! "request_out" = None ->
          expected !! "request_out" = Some (3 + nrOfRequests)%Z)).
Proof.
  intros defaults expected. subst defaults expected.
  destruct (defaultExpectations_lookup intBits nrOfRequests)
    as (Hc & Ha & Hd & Hs & Hi & Ho).
  unfold WaspTest.addInt in Hs, Hi, Ho.
  split; [apply expectations_lookup|].
  do 6 (split; [done|]).
  split; [|split].
  - intros k Hk.
    pose proof (defaultExpectations_other intBits nrOfRequests k Hk) as Hnone.
    split; [done|]. rewrite expectations_lookup, Hnone.
    by destruct (expectedMessages !! k).
  - intros k Hk. rewrite expectations_lookup.
    destruct (expectedMessages !! k); [done|].
    repeat (apply elem_of_cons in Hk as [-> | Hk]);
      [by rewrite Hc|by rewrite Ha|by rewrite Hd|by rewrite Hs
      |by rewrite Hi|by rewrite Ho|by apply elem_of_nil in Hk].
  - intros Hbits Hlo Hhi.
    rewrite !expectations_lookup, Hs, Hi, Ho.
    rewrite !wrapInt_in_range by lia.
    repeat split; by intros ->.
Qed.

(** * Properties of minting *)

Section Minting.
Import SoloFun.
Context `{Ledger}.

(** X18. [MintTokens] reports an error exactly when the transaction cannot
    be built, and then with the zero colour and the ledger untouched.  A
    transaction that was built but that the ledger rejects is not reported:
    the call returns the zero colour and a nil error, the ledger untouched.
    Otherwise the ledger is the one that accepted the transaction, and the
    colour returned is the one colour the transaction mints. *)
Theorem MintTokens_errors (ledger : UtxoDB) (wallet : KeyPair) (amount : Z) :
  (forall color err ledger',
     MintTokens ledger wallet amount = MintReturned color (Some err) ledger'
     <-> mintTransaction ledger wallet amount = inl err
         /\ color = zeroColor /\ ledger' = ledger)
  /\ (forall tx err,
        mintTransaction ledger wallet amount = inr tx ->
        AddTransaction ledger tx = inl err ->
        MintTokens ledger wallet amount = MintReturned zeroColor None ledger)
  /\ (forall tx ledger',
        mintTransaction ledger wallet amount = inr tx ->
        AddTransaction ledger tx = inr ledger' ->
        (forall color amt,
           GetMintedAmounts tx = {[color := amt]} ->
           MintTokens ledger wallet amount = MintReturned color None ledger')
        /\ (size (GetMintedAmounts tx) <> 1 ->
            MintTokens ledger wallet amount = MintTestFailed ledger')).
Proof.
  unfold MintTokens, mintTransaction.
  destruct (AddExtendedOutputSimple _ _ _ _) as [e1|txb1].
  { split; [|by split]. intros color err ledger'. split.
    - intros Heq. by simplify_eq.
    - intros (Heq & -> & ->). by simplify_eq. }
  destruct (AddReminderOutputIfNeeded txb1 _) as [e2|txb2].
  { split; [|by split]. intros color err ledger'. split.
    - intros Heq. by simplify_eq.
    - intros (Heq & -> & ->). by simplify_eq. }
  destruct (BuildWithED25519 txb2 wallet) as [e3|tx].
  { split; [|by split]. intros color err ledger'. split.
    - intros Heq. by simplify_eq.
    - intros (Heq & -> & ->). by simplify_eq. }
  split; [|split].
  - intros color err ledger'. split; [|by intros (? & _)].
    destruct (AddTransaction ledger tx); [done|].
    by repeat case_match.
  - intros tx' err Htx Hrej. simplify_eq. by rewrite Hrej.
  - intros tx' ledger' Htx Hok. simplify_eq. rewrite Hok. split.
    + intros color amt Hm. rewrite Hm. by rewrite map_to_list_singleton.
    + intros Hsize. rewrite <- length_map_to_list in Hsize.
      destruct (map_to_list (GetMintedAmounts tx')) as [|[c a] [|? ?]];
        simpl in *; done.
Qed.

End Minting.

(** * The properties on sample inputs *)

Section MoreCommittee4.
Import Demo.
#[local] Existing Instance collaborators.
#[local] Open Scope Z_scope.

Lemma checkQuorum_true_quorum_witness :
  exists sig,
    posted (events (checkQuorum opQuorum))
    = [set_txSignature (Some sig) resultTx11]
    /\ SignaturesValid (set_txSignature (Some sig) resultTx11) = true.
Proof.
  destruct (checkQuorum_true_quorum opQuorum
              (final (checkQuorum opQuorum)) (events (checkQuorum opQuorum)))
    as (ls & tx & rs & own & sig & Hls & Htx & _ & _ & _ & _ & Hv & Hp & _).
  - vm_compute. reflexivity.
  - exists sig. injection Hls as <-. injection Htx as <-.
    split; [exact Hp|exact Hv].
Defined.

Lemma doSubordinate_marks_witness :
  exists op',
    doSubordinate opIdle = Returned tt op' []
    /\ processed <$> currentStateCompRequests op' = [true].
Proof.
  destruct (doSubordinate_marks opIdle) as (op' & Hrun & _ & _ & _ & Hmark).
  exists op'. split; [exact Hrun|].
  destruct (Hmark 0%nat (mkComputationRequest R1 false) eq_refl)
    as (cr' & Hcr' & _ & Hp).
  rewrite doSubordinate_returns in Hrun. injection Hrun as <-.
  reflexivity.
Defined.

Lemma takeActions_round_in_flight_witness :
  broadcast (events (takeActions Scenarios.ticks3 opQuorum)) = []
  /\ leaderStatus (final (takeActions Scenarios.ticks3 opQuorum)) <> None.
Proof.
  apply (takeActions_round_in_flight Scenarios.ticks3 opQuorum).
  vm_compute. discriminate.
Defined.

Lemma setNewState_then_ticks_witness :
  requested (events (takeAction (tick 10 0)
                       (final (setNewState 9 resultTx11 (mkVariableState 11)
                                 opIdle))))
  = [77].
Proof.
  destruct (setNewState_then_ticks 9 resultTx11 (mkVariableState 11) opIdle [])
    as (_ & _ & _ & _ & _ & Hfetch).
  apply Hfetch; [reflexivity|vm_compute; reflexivity].
Defined.

Lemma setNewState_returns_iff_witness :
  exists op',
    setNewState 9 resultTx11 (mkVariableState 11) Scenarios.opShort
    = Panicked IndexOutOfRange op' []
    /\ balances op' = None /\ leaderStatus op' = None.
Proof.
  destruct (setNewState_returns_iff 9 resultTx11 (mkVariableState 11)
              Scenarios.opShort) as (_ & Hpanic).
  destruct Hpanic as (op' & Hrun & _ & _ & Hb & Hl).
  - vm_compute. reflexivity.
  - exists op'. split; [exact Hrun|]. split; [exact Hb|exact Hl].
Defined.

Lemma takeAction_opens_round_witness :
  exists op' par,
    takeAction (tick 1 3) opIdle
    = Returned tt op'
        (sentTrace (mkStartProcessingReqMsg 10 77 bal [1; 2]) ++
         [EvLog Debug "msgStartProcessingRequest successfully sent to %d peers";
          EvGoProcessRequest par;
          EvLog Debug "checkQuorum"])
    /\ rcReqs par = [[Byte.x01]; [Byte.x02]].
Proof.
  destruct (takeAction_opens_round (tick 1 3) opIdle bal stateTx10 77)
    as (op' & par & Hrun & _ & _ & Hmsgs & _).
  - reflexivity.
  - reflexivity.
  - reflexivity.
  - reflexivity.
  - reflexivity.
  - discriminate.
  - intros r Hin. simpl in Hin.
    apply elem_of_cons in Hin as [->|Hin]; [discriminate|].
    apply elem_of_cons in Hin as [->|Hin]; [discriminate|].
    by apply elem_of_nil in Hin.
  - vm_compute. discriminate.
  - exists op', par. split; [exact Hrun|].
    simpl in Hmsgs. apply (inj (fmap Some)). exact Hmsgs.
Defined.

Lemma takeActions_throttled_witness :
  (Z.of_nat (length (requested (events (takeActions Scenarios.ticks3
                                          opNoBalances))))
     * getBalancesTimeout
   <= 3000000000).
Proof.
  apply (takeActions_throttled Scenarios.ticks3 2000000000 opNoBalances).
  intros t Hin. unfold Scenarios.ticks3 in Hin.
  apply elem_of_cons in Hin as [->|Hin]; [simpl; lia|].
  apply elem_of_cons in Hin as [->|Hin]; [simpl; lia|].
  apply elem_of_cons in Hin as [->|Hin]; [simpl; lia|].
  by apply elem_of_nil in Hin.
Defined.

End MoreCommittee4.

Section MoreSamples.
Import Samples.
#[local] Open Scope Z_scope.

Lemma collateBatch_partition_witness :
  Solo.batch (@Solo.collateBatch _ Solo.pairRequest clock1030 backlog2)
  = [(2, 20)]
  /\ Solo.backlogAfter (@Solo.collateBatch _ Solo.pairRequest clock1030 backlog2)
     = [(1, 20)]
  /\ Solo.batch (@Solo.collateBatch _ Solo.pairRequest (fun _ => 10) backlog3)
     = [(1, 0); (3, 10)].
Proof.
  split; [|split].
  - destruct (@collateBatch_partition _ Solo.pairRequest clock1030 backlog2)
      as (Hb & _).
    rewrite Hb. reflexivity.
  - destruct (@collateBatch_partition _ Solo.pairRequest clock1030 backlog2)
      as (_ & Hk & _).
    rewrite Hk. reflexivity.
  - destruct (@collateBatch_partition _ Solo.pairRequest (fun _ => 10) backlog3)
      as (_ & _ & _ & _ & _ & _ & Hstill).
    destruct (Hstill 10) as (Hb & _); [done|].
    rewrite Hb. reflexivity.
Defined.

Lemma collateBatch_advancing_witness :
  (forall r,
     r ∈ Solo.batch
           (@Solo.collateBatch _ Solo.pairRequest (fun _ => 30)
              (Solo.backlogAfter
                 (@Solo.collateBatch _ Solo.pairRequest clock1030 backlog2))) ->
     10 < @Solo.TimeLock _ Solo.pairRequest r <= 30)
  /\ Solo.batch
       (@Solo.collateBatch _ Solo.pairRequest (fun _ => 50)
          (Solo.backlogAfter
             (@Solo.collateBatch _ Solo.pairRequest (fun _ => 10) backlog3)))
     = [(2, 50)].
Proof.
  split.
  - destruct (@collateBatch_advancing _ Solo.pairRequest clock1030
                (fun _ => 30) 10 30 30 30 backlog2)
      as (_ & _ & Hsecond & _).
    + intros i _. destruct i; simpl; lia.
    + intros i _. lia.
    + exact Hsecond.
  - destruct (@collateBatch_advancing _ Solo.pairRequest (fun _ => 10)
                (fun _ => 50) 10 10 50 50 backlog3)
      as (_ & _ & _ & _ & _ & _ & _ & Hstill).
    + intros i _. lia.
    + intros i _. lia.
    + destruct (Hstill 10 50) as (Hsecond & _); [done | done |].
      rewrite Hsecond. reflexivity.
Defined.

Lemma addToBacklog_then_collateBatch_witness :
  Solo.backlogAfter
    (@Solo.collateBatch _ Solo.pairRequest clock1030
       (fst (@Solo.addToBacklog _ Solo.pairRequest (4, 60) backlog3)))
  = [(2, 50); (4, 60)].
Proof.
  destruct (@addToBacklog_then_collateBatch _ Solo.pairRequest clock1030
              (4, 60) backlog3) as (_ & Hlater).
  destruct Hlater as (_ & Hkept & _).
  - simpl. lia.
  - rewrite Hkept. reflexivity.
Defined.

Lemma RequestsForChain_outputs_witness :
  @Solo.RequestsForChain _ _ _ Solo.pairOutput outputs4 9 5
  = [(100, 9); (103, 9)]
  /\ @Solo.RequestsForChain _ _ _ Solo.pairOutput outputs4 9 7 = [].
Proof.
  destruct (@RequestsForChain_outputs _ _ _ Solo.pairOutput outputs4 9)
    as (Hfor & _ & _).
  split; rewrite Hfor; reflexivity.
Defined.

Lemma GetFeeInfo_fees_witness :
  @Root.GetFeeInfo Root.simpleStore store7 7 = inr (0, 3, 3)
  /\ @Root.FindContract Root.simpleStore store0 0 = inr (0, 0)
  /\ @Root.GetFeeInfo Root.simpleStore store0 0 = inr (0, 25, 0).
Proof.
  destruct (@GetFeeInfo_fees Root.simpleStore store0 0) as (Hroot & _ & _).
  destruct (Hroot eq_refl) as (Hfind & Hfees).
  split; [reflexivity|]. split; [exact Hfind|]. rewrite Hfees. reflexivity.
Defined.

Lemma DecodeContractRegistry_entries_witness :
  exists before e after,
    entries3 = before ++ e :: after
    /\ @Root.decodeEntry Root.simpleStore e = None
    /\ length before = 1%nat.
Proof.
  destruct (@DecodeContractRegistry_entries Root.simpleStore entries3)
    as (_ & _ & Herr).
  destruct (Herr tt) as (before & e & after & Hsplit & Hnone & Hpre).
  - reflexivity.
  - exists before, e, after. split; [exact Hsplit|]. split; [exact Hnone|].
    apply (f_equal length) in Hpre. rewrite !length_fmap in Hpre.
    rewrite <- Hpre. reflexivity.
Defined.

Lemma expectations_override_witness :
  WaspTest.expectations 64 5 {["request_in" := 9]} !! "state" = Some 8
  /\ WaspTest.expectations 64 (2 ^ 63 - 1) ∅ !! "state" = Some (2 - 2 ^ 63).
Proof.
  split.
  - destruct (expectations_override 64 5 {["request_in" := 9]})
      as (_ & _ & _ & _ & _ & _ & _ & _ & _ & Hfits).
    destruct Hfits as (Hstate & _); [lia | lia | lia |].
    apply Hstate. apply lookup_singleton_ne. discriminate.
  - destruct (expectations_override 64 (2 ^ 63 - 1) ∅)
      as (Hlook & _ & _ & _ & Hstate & _).
    rewrite Hlook, lookup_empty, Hstate. reflexivity.
Defined.

Lemma MintTokens_errors_witness :
  @SoloFun.MintTokens SoloFun.listLedger [5] 1 5
  = @SoloFun.MintReturned SoloFun.listLedger SoloFun.zeroColor None [5].
Proof.
  refine (proj1 (proj2 (@MintTokens_errors SoloFun.listLedger [5] 1 5))
            5 tt _ _); reflexivity.
Defined.

End MoreSamples.
